(** * Discord bridge for a tmux-hosted CLI agent: monitoring and notification pipeline

    A shallow embedding of [src/index-discord.js]: the module-level state of
    the service, the callbacks it registers with the Node.js event loop
    (timer ticks, child-process events, Discord gateway events, signals) and
    the calls these callbacks make to their collaborators.

    Every callback is a computation in a small state-and-exception monad over
    [World]; each call that leaves the module is appended to the world's
    [trace], so that ordering properties can be read off the trace.

    Modelled: [startMonitorPolling] with [scheduleNextPoll] and its three
    listeners, [handleStateChange], [handleDiscordMessage], [shutdown], [main]
    and the listeners [main] registers for the ready event, for uncaught
    exceptions and for unhandled rejections.  Not modelled: the slash-command
    dispatcher [handleInteraction] and the banner [printStartupInfo]; neither
    writes a module-level variable. *)

From Stdlib Require Import String List ZArith NArith Bool Arith Lia.
Import ListNotations.
Local Open Scope string_scope.
Local Open Scope nat_scope.
Local Open Scope list_scope.

(** ** JavaScript strings

    Text that comes from the chat or from the terminal is a sequence of UTF-16
    code units; identifiers, channel ids, session names and state names are
    plain strings. *)

Definition jsstring := list N.

(** WhiteSpace and LineTerminator code points of ECMAScript, the characters
    that [String.prototype.trim] strips. *)
Definition isWhiteSpace (c : N) : bool :=
  existsb (N.eqb c)
    [9; 10; 11; 12; 13; 32; 160; 5760; 8232; 8233; 8239; 8287; 12288; 65279]%N
  || ((8192 <=? c) && (c <=? 8202))%N.

Fixpoint trimStart (s : jsstring) : jsstring :=
  match s with
  | c :: s' => if isWhiteSpace c then trimStart s' else s
  | [] => []
  end.

Definition trimEnd (s : jsstring) : jsstring := rev (trimStart (rev s)).

Definition trim (s : jsstring) : jsstring := trimEnd (trimStart s).

(** [s.substring(0, n)] *)
Definition substring0 (n : nat) (s : jsstring) : jsstring := firstn n s.

(** ** Values exchanged with the collaborators *)

(** The [config] object, as far as this module reads it. *)
Record Config := {
  discord_channelId : string;
  monitor_pollInterval : N;
  deduplication_ttl : Z;
  deduplication_maxSize : nat }.

(** A discord.js [Message], as far as [handleDiscordMessage] reads it. *)
Record Message := {
  author_bot : bool;
  channelId : string;
  content : jsstring;
  msg_id : string }.

(** The object a classification pass resolves to.  [sr_content] is [None]
    when the property is missing or not a string. *)
Record StateResult := {
  sr_type : string;
  sr_content : option jsstring;
  sr_timestamp : Z }.

(** What the promise returned by [detector.detect] settles to. *)
Inductive DetectOutcome :=
| Resolved (r : option StateResult)
| Rejected.

(** The module-level [let] bindings that hold a collaborator (all start as
    [null]). *)
Inductive Global :=
| messenger | commander | detector | router | sessionManager | deduplicator
| messageHistory | discordClient | transcriptMonitor | processManager.

Definition Global_eqb (a b : Global) : bool :=
  match a, b with
  | messenger, messenger | commander, commander | detector, detector
  | router, router | sessionManager, sessionManager
  | deduplicator, deduplicator | messageHistory, messageHistory
  | discordClient, discordClient | transcriptMonitor, transcriptMonitor
  | processManager, processManager => true
  | _, _ => false
  end.

(** The two texts [handleStateChange] passes to [messenger.sendText]: the
    waiting-for-input template with the cleaned prompt spliced in, and the
    fixed task-completed text. *)
Inductive OutText :=
| TxtWaitingForInput (prompt : option jsstring)
| TxtTaskCompleted.

Inductive Level := Debug | Info | Warn | Error | Success | Monitor | Blank.

(** One constructor per [Logger] call site of the modelled functions, with the
    values interpolated into the message. *)
Inductive LogMsg :=
| MsgStartPolling (session : option string)
| MsgPollSkipped
| MsgCaptureError
| MsgDetectFailed
| MsgStateChange (ty : string)
| MsgNoNotification (ty : string)
| MsgUnhandledState (ty : string)
| MsgStateChangeFailed
| MsgDuplicateEvent (eventId : string)
| MsgProcessing (head : jsstring) (ellipsis : bool)
| MsgMessageFailed
| MsgBotLoggedIn
| MsgNoGuild
| MsgRegisterFailed
| MsgShuttingDown
| MsgPollingStopped
| MsgManagerStopped
| MsgDedupDestroyed
| MsgHistoryDestroyed
| MsgClientClosed
| MsgShutdownError
| MsgShutdownDone
| MsgTrackingSession (session : string)
| MsgNoSession
| MsgConnecting
| MsgStarted
| MsgStartFailed
| MsgUncaught
| MsgUnhandledRejection
| MsgRejectionFatal
| MsgRejectionIgnored
| MsgNone.

(** Calls that leave the module, in the order they are made. *)
Inductive Effect :=
| ELog (lvl : Level) (msg : LogMsg)
| ESendText (t : OutText)               (* messenger.sendText(t) *)
| EBufferUpdate (b : jsstring)          (* sessionManager.buffer.update(b) *)
| EDetect (b : jsstring)                (* detector.detect(b) *)
| ESetMonitorState (s : string)         (* router.setMonitorState(s) *)
| ESpawn (pid : nat) (target : option string)  (* processManager.spawn('tmux', ['capture-pane', ..]) *)
| ESetTimeout (tid : nat) (delay : N)   (* setTimeout(scheduleNextPoll, delay) *)
| EClearTimeout (tid : nat)             (* clearTimeout(tid) *)
| EIsProcessed (k : string)             (* deduplicator.isProcessed(k) *)
| EMarkProcessed (k : string)           (* deduplicator.markProcessed(k) *)
| ERoute (text : jsstring)              (* router.route({text}) *)
| ENew (g : Global)                     (* g = new ...(..) *)
| ECall (g : Global) (method : string)  (* g.method(..) *)
| EFn (name : string)                   (* a free function of another module *)
| EOn (emitter event : string)          (* emitter.on(event, handler) *)
| EExit (code : Z).                     (* process.exit(code) *)

(** ** Idempotency cache *)

Record IdempotencyEntry := { key : string; firstSeen : Z }.

(** Entries in insertion order. *)
Definition Cache := list IdempotencyEntry.

Module Dedup.

(** Modelled from the spec: the [MessageDeduplicator] class
    ([utils/deduplicator.js]) is not among the sources.  Section 4.1 and the
    data model give its contract: a key is present from its first
    [markProcessed] until a cleanup pass finds it older than [ttl] or until
    it is evicted, oldest first, to make room for a new key. *)
Definition isProcessed (k : string) (c : Cache) : bool :=
  existsb (fun e => String.eqb (key e) k) c.

(** Modelled from the spec: the smallest [firstSeen] of a non-empty cache,
    the age by which the entry to evict is chosen. *)
Definition minFirstSeen (e : IdempotencyEntry) (c : Cache) : Z :=
  fold_left (fun m e' => Z.min m (firstSeen e')) c (firstSeen e).

(** Modelled from the spec: drops the first entry whose [firstSeen] is [t]. *)
Fixpoint removeFirst (t : Z) (c : Cache) : Cache :=
  match c with
  | [] => []
  | e :: c' => if (firstSeen e =? t)%Z then c' else e :: removeFirst t c'
  end.

(** Modelled from the spec: "the oldest entry (by firstSeen) is evicted
    first". *)
Definition evictOldest (c : Cache) : Cache :=
  match c with
  | [] => []
  | e :: c' => removeFirst (minFirstSeen e c') c
  end.

(** Modelled from the spec: marking a present key changes nothing (the TTL
    runs from the first insertion); a new key evicts the oldest entry when
    the cache is at capacity. *)
Definition markProcessed (maxSize : nat) (now : Z) (k : string) (c : Cache) : Cache :=
  if isProcessed k c then c
  else (if maxSize <=? length c then evictOldest c else c)
         ++ [{| key := k; firstSeen := now |}].

(** Modelled from the spec: the periodic pass "removes entries whose age
    exceeds ttl". *)
Definition cleanup (ttl now : Z) (c : Cache) : Cache :=
  filter (fun e => (now - firstSeen e <=? ttl)%Z) c.

End Dedup.

(** ** Collaborators

    The classes and modules this file imports are not part of the sources; what
    they return is taken as a parameter.  [fails] decides, from the calls made
    so far, whether a call into a collaborator throws (or its promise
    rejects). *)
Class Collaborators := {
  config : Config;
  StateDetector : Type;
  detect : jsstring -> StateDetector -> DetectOutcome * StateDetector;
  getPollInterval : StateDetector -> N;
  getCurrentState : StateDetector -> string;
  newStateDetector : StateDetector;
  cleanForNotification : jsstring -> nat -> jsstring;
  initialSession : option string;
  autoSelectSession : option string -> option string;
  guildKnown : bool;
  isProduction : bool;
  fails : list Effect -> Effect -> bool }.

(** ** The world: module state and event-loop state *)

(** A pending [setTimeout(scheduleNextPoll, delay)]. *)
Record Timer := { tid : nat; delay : N }.

(** A [capture-pane] child whose ['close'] event has not been emitted yet,
    with the [newBuffer] variable of its closure. *)
Record Proc := { pid : nat; target : option string; newBuffer : jsstring }.

Section Model.
Context {env : Collaborators}.

Record World := {
  assigned : list Global;          (* the globals that are no longer null *)
  isDiscordConnected : bool;
  monitorTimeout : option nat;
  currentSession : option string;  (* sessionManager.getCurrentSession() *)
  detectorState : StateDetector;
  cache : Cache;                   (* the entries of [deduplicator] *)
  timers : list Timer;
  procs : list Proc;
  fresh : nat;                     (* next timer handle / process id *)
  exited : option Z;
  trace : list Effect }.

Definition has (g : Global) (w : World) : bool :=
  existsb (Global_eqb g) (assigned w).

Definition set_assigned v w :=
  {| assigned := v; isDiscordConnected := isDiscordConnected w;
     monitorTimeout := monitorTimeout w; currentSession := currentSession w;
     detectorState := detectorState w; cache := cache w; timers := timers w;
     procs := procs w; fresh := fresh w; exited := exited w; trace := trace w |}.
Definition set_isDiscordConnected v w :=
  {| assigned := assigned w; isDiscordConnected := v;
     monitorTimeout := monitorTimeout w; currentSession := currentSession w;
     detectorState := detectorState w; cache := cache w; timers := timers w;
     procs := procs w; fresh := fresh w; exited := exited w; trace := trace w |}.
Definition set_monitorTimeout v w :=
  {| assigned := assigned w; isDiscordConnected := isDiscordConnected w;
     monitorTimeout := v; currentSession := currentSession w;
     detectorState := detectorState w; cache := cache w; timers := timers w;
     procs := procs w; fresh := fresh w; exited := exited w; trace := trace w |}.
Definition set_currentSession v w :=
  {| assigned := assigned w; isDiscordConnected := isDiscordConnected w;
     monitorTimeout := monitorTimeout w; currentSession := v;
     detectorState := detectorState w; cache := cache w; timers := timers w;
     procs := procs w; fresh := fresh w; exited := exited w; trace := trace w |}.
Definition set_detectorState v w :=
  {| assigned := assigned w; isDiscordConnected := isDiscordConnected w;
     monitorTimeout := monitorTimeout w; currentSession := currentSession w;
     detectorState := v; cache := cache w; timers := timers w;
     procs := procs w; fresh := fresh w; exited := exited w; trace := trace w |}.
Definition set_cache v w :=
  {| assigned := assigned w; isDiscordConnected := isDiscordConnected w;
     monitorTimeout := monitorTimeout w; currentSession := currentSession w;
     detectorState := detectorState w; cache := v; timers := timers w;
     procs := procs w; fresh := fresh w; exited := exited w; trace := trace w |}.
Definition set_timers v w :=
  {| assigned := assigned w; isDiscordConnected := isDiscordConnected w;
     monitorTimeout := monitorTimeout w; currentSession := currentSession w;
     detectorState := detectorState w; cache := cache w; timers := v;
     procs := procs w; fresh := fresh w; exited := exited w; trace := trace w |}.
Definition set_procs v w :=
  {| assigned := assigned w; isDiscordConnected := isDiscordConnected w;
     monitorTimeout := monitorTimeout w; currentSession := currentSession w;
     detectorState := detectorState w; cache := cache w; timers := timers w;
     procs := v; fresh := fresh w; exited := exited w; trace := trace w |}.
Definition set_fresh v w :=
  {| assigned := assigned w; isDiscordConnected := isDiscordConnected w;
     monitorTimeout := monitorTimeout w; currentSession := currentSession w;
     detectorState := detectorState w; cache := cache w; timers := timers w;
     procs := procs w; fresh := v; exited := exited w; trace := trace w |}.
Definition set_exited v w :=
  {| assigned := assigned w; isDiscordConnected := isDiscordConnected w;
     monitorTimeout := monitorTimeout w; currentSession := currentSession w;
     detectorState := detectorState w; cache := cache w; timers := timers w;
     procs := procs w; fresh := fresh w; exited := v; trace := trace w |}.
Definition set_trace v w :=
  {| assigned := assigned w; isDiscordConnected := isDiscordConnected w;
     monitorTimeout := monitorTimeout w; currentSession := currentSession w;
     detectorState := detectorState w; cache := cache w; timers := timers w;
     procs := procs w; fresh := fresh w; exited := exited w; trace := v |}.

(** *** The monad of callbacks *)

Inductive Outcome (A : Type) :=
| Ok (a : A)      (* ran to its end *)
| Thrown          (* an exception is propagating *)
| Exited.         (* process.exit was called: nothing runs any more *)
Arguments Ok {A} a.
Arguments Thrown {A}.
Arguments Exited {A}.

Definition M (A : Type) := World -> Outcome A * World.

Definition ret {A} (a : A) : M A := fun w => (Ok a, w).

Definition bind {A B} (c : M A) (k : A -> M B) : M B :=
  fun w => match c w with
           | (Ok a, w') => k a w'
           | (Thrown, w') => (Thrown, w')
           | (Exited, w') => (Exited, w')
           end.

Notation "x <- c ;; k" := (bind c (fun x => k))
  (at level 61, c at next level, right associativity).
Notation "c ;; k" := (bind c (fun _ => k))
  (at level 61, right associativity).

(** [try { body } catch { handler }] *)
Definition try_catch (body handler : M unit) : M unit :=
  fun w => match body w with
           | (Thrown, w') => handler w'
           | r => r
           end.

Definition get {A} (f : World -> A) : M A := fun w => (Ok (f w), w).
Definition modify (f : World -> World) : M unit := fun w => (Ok tt, f w).

(** A call that cannot throw (a [Logger] call, or a call the source makes
    outside every [try]). *)
Definition emit (e : Effect) : M unit :=
  modify (fun w => set_trace (trace w ++ [e]) w).

(** A call into a collaborator that may throw. *)
Definition call (e : Effect) : M unit :=
  fun w => (if fails (trace w) e then Thrown else Ok tt,
            set_trace (trace w ++ [e]) w).

Definition log (lvl : Level) (msg : LogMsg) : M unit := emit (ELog lvl msg).

(** [process.exit(code)] *)
Definition exit {A} (code : Z) : M A :=
  fun w => (Exited, set_exited (Some code) (set_trace (trace w ++ [EExit code]) w)).

Definition when (b : bool) (c : M unit) : M unit := if b then c else ret tt.

(** The world a callback leaves behind. *)
Definition exec {A} (c : M A) (w : World) : World := snd (c w).

(** *** Inbound chat messages *)

(** [!content || content.trim().length === 0] *)
Definition isBlank (s : jsstring) : bool :=
  (length s =? 0) || (length (trim s) =? 0).

(** [`discord_${message.id}`] *)
Definition eventId (m : Message) : string :=
  String.append "discord_" (msg_id m).

(** [handleDiscordMessage(message)], called at time [now]. *)
Definition handleDiscordMessage (now : Z) (m : Message) : M unit :=
  try_catch
    (if author_bot m then ret tt
     else if negb (String.eqb (channelId m) (discord_channelId config)) then ret tt
     else if isBlank (content m) then ret tt
     else
       emit (EIsProcessed (eventId m)) ;;
       dup <- get (fun w => Dedup.isProcessed (eventId m) (cache w)) ;;
       if dup : bool then log Info (MsgDuplicateEvent (eventId m))
       else
         emit (EMarkProcessed (eventId m)) ;;
         modify (fun w => set_cache
                   (Dedup.markProcessed (deduplication_maxSize config) now
                      (eventId m) (cache w)) w) ;;
         log Info (MsgProcessing (substring0 50 (content m))
                                 (50 <? length (content m))) ;;
         call (ERoute (content m)))
    (log Error MsgMessageFailed).

(** *** State changes *)

(** The [cleanContent] closure: a non-empty string is passed through
    [sessionManager.buffer.cleanForNotification(content, 30)]; anything else
    is returned as it is. *)
Definition cleanContent (c : option jsstring) : option jsstring :=
  match c with
  | Some ((_ :: _) as s) => Some (cleanForNotification s 30)
  | other => other
  end.

(** The labels that share the "detected, no notification" branch. *)
Definition quietStates : list string :=
  ["plan_mode"; "testing"; "git_operation"; "warning"; "idle_input"].

(** [handleStateChange(stateResult)], run to its end (the function is
    [async]; it never rejects, since its only [await] is inside the [try]). *)
Definition handleStateChange (r : StateResult) : M unit :=
  log Debug (MsgStateChange (sr_type r)) ;;
  try_catch
    (if String.eqb (sr_type r) "error" then ret tt
     else if existsb (String.eqb (sr_type r)) quietStates then
       log Debug (MsgNoNotification (sr_type r))
     else if String.eqb (sr_type r) "input_prompt" then
       call (ESendText (TxtWaitingForInput (cleanContent (sr_content r))))
     else if String.eqb (sr_type r) "completed" then
       call (ESendText TxtTaskCompleted)
     else log Debug (MsgUnhandledState (sr_type r)))
    (log Error MsgStateChangeFailed).

(** *** Timers and sampling processes *)

Definition setTimeout (d : N) : M nat :=
  fun w =>
    let t := fresh w in
    (Ok t, set_fresh (S t)
             (set_timers (timers w ++ [{| tid := t; delay := d |}])
                (set_trace (trace w ++ [ESetTimeout t d]) w))).

Definition clearTimeout (t : nat) : M unit :=
  modify (fun w =>
    set_timers (filter (fun x => negb (tid x =? t)) (timers w))
      (set_trace (trace w ++ [EClearTimeout t]) w)).

(** [processManager.spawn('tmux', ['capture-pane', '-p', '-t', target, ..])]
    together with [let newBuffer = ''].  The [onExit] and [onError] options
    passed along only write a log line and are left out. *)
Definition spawn (tgt : option string) : M nat :=
  fun w =>
    let p := fresh w in
    (Ok p, set_fresh (S p)
             (set_procs (procs w ++ [{| pid := p; target := tgt; newBuffer := [] |}])
                (set_trace (trace w ++ [ESpawn p tgt]) w))).

(** [monitorTimeout = setTimeout(scheduleNextPoll, d)] *)
Definition armMonitorTimeout (d : N) : M unit :=
  t <- setTimeout d ;;
  modify (set_monitorTimeout (Some t)).

(** The body of [scheduleNextPoll], up to the registration of the three
    listeners, which are [onData], [onClose] and [onError] below. *)
Definition scheduleNextPoll : M unit :=
  connected <- get isDiscordConnected ;;
  if negb connected then log Debug MsgPollSkipped
  else
    s <- get currentSession ;;
    _ <- spawn s ;;
    ret tt.

(** [newBuffer += data.toString()] *)
Definition onData (p : nat) (chunk : jsstring) : M unit :=
  modify (fun w =>
    set_procs (map (fun x => if pid x =? p
                             then {| pid := pid x; target := target x;
                                     newBuffer := newBuffer x ++ chunk |}
                             else x) (procs w)) w).

(** [detector.detect(b)]: the detector's state changes at the call; the
    promise settles to the outcome. *)
Definition runDetect (b : jsstring) : M DetectOutcome :=
  emit (EDetect b) ;;
  fun w => let (o, d) := detect b (detectorState w) in
           (Ok o, set_detectorState d w).

(** The [.then(..).catch(..)] chain on the promise of [detect]. *)
Definition onDetected (o : DetectOutcome) : M unit :=
  match o with
  | Resolved r =>
      try_catch
        (match r with
         | Some stateResult => handleStateChange stateResult
         | None => ret tt
         end ;;
         hasRouter <- get (has router) ;;
         when hasRouter
           (s <- get (fun w => getCurrentState (detectorState w)) ;;
            call (ESetMonitorState s)))
        (log Error MsgDetectFailed)
  | Rejected => log Error MsgDetectFailed
  end.

(** The ['close'] listener of the process whose closure holds [buf].  The
    promise chain runs after the listener has returned. *)
Definition onClose (buf : jsstring) : M unit :=
  settled <- match buf with
             | [] => ret None
             | _ :: _ =>
                 emit (EBufferUpdate buf) ;;
                 o <- runDetect buf ;;
                 ret (Some o)
             end ;;
  connected <- get isDiscordConnected ;;
  when connected
    (nextInterval <- get (fun w => getPollInterval (detectorState w)) ;;
     armMonitorTimeout nextInterval) ;;
  match settled with
  | Some o => onDetected o
  | None => ret tt
  end.

(** The ['error'] listener. *)
Definition onError : M unit :=
  log Error MsgCaptureError ;;
  nextInterval <- get (fun w => getPollInterval (detectorState w)) ;;
  armMonitorTimeout nextInterval.

(** [startMonitorPolling()] *)
Definition startMonitorPolling : M unit :=
  sessionName <- get currentSession ;;
  log Monitor (MsgStartPolling sessionName) ;;
  armMonitorTimeout (monitor_pollInterval config).

(** Truthiness of [sessionManager.getCurrentSession()]. *)
Definition isSet (s : option string) : bool :=
  match s with
  | Some name => negb (String.eqb name "")
  | None => false
  end.

(** The [Events.ClientReady] listener registered by [main]. *)
Definition onClientReady : M unit :=
  log Success MsgBotLoggedIn ;;
  modify (set_isDiscordConnected true) ;;
  try_catch
    (call (ECall discordClient "channels.fetch") ;;
     if guildKnown then call (EFn "registerCommands")
     else log Error MsgNoGuild)
    (log Error MsgRegisterFailed) ;;
  emit (ECall transcriptMonitor "start") ;;
  s <- get currentSession ;;
  when (isSet s) startMonitorPolling.

(** *** Shutdown and startup *)

(** [shutdown()].  The function is run to its end; what the event loop does
    while [processManager.stop()] is awaited is not part of the model. *)
Definition shutdown : M unit :=
  log Blank MsgNone ;;
  log Info MsgShuttingDown ;;
  try_catch
    (mt <- get monitorTimeout ;;
     match mt with
     | Some t => clearTimeout t ;; log Debug MsgPollingStopped
     | None => ret tt
     end ;;
     pm <- get (has processManager) ;;
     when pm (call (ECall processManager "stop") ;; log Debug MsgManagerStopped) ;;
     dd <- get (has deduplicator) ;;
     when dd (call (ECall deduplicator "destroy") ;; log Info MsgDedupDestroyed) ;;
     mh <- get (has messageHistory) ;;
     when mh (call (ECall messageHistory "destroy") ;; log Info MsgHistoryDestroyed) ;;
     tm <- get (has transcriptMonitor) ;;
     when tm (call (ECall transcriptMonitor "stop")) ;;
     dc <- get (has discordClient) ;;
     when dc (call (ECall discordClient "destroy") ;; log Success MsgClientClosed))
    (log Error MsgShutdownError) ;;
  log Success MsgShutdownDone ;;
  exit 0.

(** [g = new ..(..)] *)
Definition construct (g : Global) : M unit :=
  call (ENew g) ;;
  modify (fun w => set_assigned (g :: assigned w) w).

(** [main()].  The entries a restarted deduplicator loads from its snapshot
    are the [cache] of the world [main] starts in.  [MsgStartFailed] stands
    for the error line and the stack line of the [catch] block. *)
Definition main : M unit :=
  try_catch
    (call (EFn "validateDiscordConfig") ;;
     construct processManager ;;
     call (ECall processManager "start") ;;
     construct sessionManager ;;
     modify (set_currentSession initialSession) ;;
     construct deduplicator ;;
     construct messageHistory ;;
     construct discordClient ;;
     construct messenger ;;
     construct transcriptMonitor ;;
     construct commander ;;
     construct detector ;;
     modify (set_detectorState newStateDetector) ;;
     construct router ;;
     call (EFn "printStartupInfo") ;;
     call (ECall sessionManager "autoSelectSession") ;;
     modify (fun w => set_currentSession (autoSelectSession (currentSession w)) w) ;;
     s <- get currentSession ;;
     match s with
     | Some sessionName =>
         if isSet s then
           construct commander ;;
           tm <- get (has transcriptMonitor) ;;
           when tm
             (call (ECall transcriptMonitor "setTmuxSession") ;;
              call (ECall transcriptMonitor "setTmuxCommander") ;;
              log Info (MsgTrackingSession sessionName))
         else log Warn MsgNoSession
     | None => log Warn MsgNoSession
     end ;;
     emit (EOn "discordClient" "ClientReady") ;;
     emit (EOn "discordClient" "MessageCreate") ;;
     emit (EOn "discordClient" "InteractionCreate") ;;
     emit (EOn "discordClient" "Error") ;;
     emit (EOn "discordClient" "Warn") ;;
     log Info MsgConnecting ;;
     call (ECall discordClient "login") ;;
     log Success MsgStarted ;;
     emit (EOn "process" "SIGINT") ;;
     emit (EOn "process" "SIGTERM") ;;
     emit (EOn "process" "uncaughtException") ;;
     emit (EOn "process" "unhandledRejection"))
    (log Error MsgStartFailed ;;
     exit 1).

(** The ['uncaughtException'] listener. *)
Definition onUncaughtException : M unit :=
  log Error MsgUncaught ;;
  shutdown ;;
  exit 1.

(** The ['unhandledRejection'] listener. *)
Definition onUnhandledRejection : M unit :=
  log Error MsgUnhandledRejection ;;
  if isProduction then
    log Error MsgRejectionFatal ;;
    shutdown ;;
    exit 1
  else log Warn MsgRejectionIgnored.

(** The world the module is loaded in: every global is [null], the flag is
    [false], nothing is pending. *)
Definition world0 (snapshot : Cache) : World :=
  {| assigned := []; isDiscordConnected := false; monitorTimeout := None;
     currentSession := None; detectorState := newStateDetector;
     cache := snapshot; timers := []; procs := []; fresh := 0;
     exited := None; trace := [] |}.

(** *** The event loop *)

(** What the runtime can deliver to the listeners above. *)
Inductive Event :=
| TimerFired (t : nat)                      (* a pending timer expires *)
| StdoutData (p : nat) (chunk : jsstring)   (* 'data' on the child's stdout *)
| ProcError (p : nat)                       (* 'error' on the child *)
| ProcClose (p : nat)                       (* 'close' on the child *)
| ClientReady
| MessageCreate (now : Z) (m : Message)
| CacheCleanup (now : Z)                    (* the deduplicator's periodic pass *)
| Signal.                                   (* SIGINT or SIGTERM *)

Definition findProc (p : nat) (w : World) : option Proc :=
  find (fun x => pid x =? p) (procs w).

Definition dropProc (p : nat) (w : World) : World :=
  set_procs (filter (fun x => negb (pid x =? p)) (procs w)) w.

Definition dropTimer (t : nat) (w : World) : World :=
  set_timers (filter (fun x => negb (tid x =? t)) (timers w)) w.

(** The listener an event runs.  A timer fires only while it is pending; a
    child emits events only until it has closed, and ['error'] does not end
    it: ['close'] follows.  [ClientReady] is registered with [once]. *)
Definition dispatch (ev : Event) : M unit :=
  match ev with
  | TimerFired t =>
      pending <- get (fun w => existsb (fun x => tid x =? t) (timers w)) ;;
      when pending (modify (dropTimer t) ;; scheduleNextPoll)
  | StdoutData p chunk => onData p chunk
  | ProcError p =>
      live <- get (findProc p) ;;
      match live with
      | Some _ => onError
      | None => ret tt
      end
  | ProcClose p =>
      live <- get (findProc p) ;;
      match live with
      | Some x => modify (dropProc p) ;; onClose (newBuffer x)
      | None => ret tt
      end
  | ClientReady =>
      seen <- get isDiscordConnected ;;
      when (negb seen) onClientReady
  | MessageCreate now m => handleDiscordMessage now m
  | CacheCleanup now =>
      modify (fun w => set_cache (Dedup.cleanup (deduplication_ttl config) now (cache w)) w)
  | Signal => shutdown
  end.

(** One turn of the event loop.  Nothing runs once the process has exited;
    an exception that escapes a listener reaches the ['uncaughtException']
    listener. *)
Definition step (ev : Event) (w : World) : World :=
  match exited w with
  | Some _ => w
  | None => exec (try_catch (dispatch ev) onUncaughtException) w
  end.

Definition run (evs : list Event) (w : World) : World :=
  fold_left (fun w ev => step ev w) evs w.

(** *** Observations on a trace *)

Definition isSendText (e : Effect) : bool :=
  match e with ESendText _ => true | _ => false end.
Definition isRoute (e : Effect) : bool :=
  match e with ERoute _ => true | _ => false end.
Definition isSetTimeout (e : Effect) : bool :=
  match e with ESetTimeout _ _ => true | _ => false end.
Definition isStateChange (e : Effect) : bool :=
  match e with ELog Debug (MsgStateChange _) => true | _ => false end.

(** The effects a computation appends to the trace of [w]. *)
Definition effects {A} (c : M A) (w : World) : list Effect :=
  skipn (length (trace w)) (trace (exec c w)).

(** The sampling processes in flight. *)
Definition inFlight (w : World) : nat := length (procs w).

(** *** Predicates used to state the properties *)

(** The message passes the three guards at the head of
    [handleDiscordMessage]. *)
Definition accepted (m : Message) : bool :=
  negb (author_bot m)
  && String.eqb (channelId m) (discord_channelId config)
  && negb (isBlank (content m)).

(** What the first delivery of an accepted, unseen message appends to the
    trace, given the trace [tr] before it. *)
Definition firstDelivery (tr : list Effect) (m : Message) : list Effect :=
  let upToRoute :=
    [EIsProcessed (eventId m); EMarkProcessed (eventId m);
     ELog Info (MsgProcessing (substring0 50 (content m)) (50 <? length (content m)))] in
  upToRoute ++ [ERoute (content m)]
    ++ (if fails (tr ++ upToRoute) (ERoute (content m))
        then [ELog Error MsgMessageFailed] else []).

(** A later delivery of the message [m] first seen at [t0], or a cleanup pass
    of the deduplicator, before the TTL of that first delivery has run out. *)
Definition isRedelivery (m : Message) (t0 : Z) (ev : Event) : bool :=
  match ev with
  | MessageCreate t m' =>
      String.eqb (msg_id m') (msg_id m)
      && (t0 <=? t)%Z && (t - t0 <=? deduplication_ttl config)%Z
  | CacheCleanup t => (t - t0 <=? deduplication_ttl config)%Z
  | _ => false
  end.

(** The two calls a dropped duplicate of [m] makes. *)
Definition dropsDuplicate (m : Message) (e : Effect) : Prop :=
  e = EIsProcessed (eventId m) \/ e = ELog Info (MsgDuplicateEvent (eventId m)).

(** The calls of [messenger.sendText] that a classification result leads to. *)
Definition notifications (r : StateResult) : list Effect :=
  if String.eqb (sr_type r) "input_prompt" then
    [ESendText (TxtWaitingForInput (cleanContent (sr_content r)))]
  else if String.eqb (sr_type r) "completed" then [ESendText TxtTaskCompleted]
  else [].

(** The states the specification lists as needing human attention. *)
Definition needsAttention (ty : string) : bool :=
  existsb (String.eqb ty) ["input_prompt"; "completed"; "error"].

(** A call that feeds sampled text to the rolling buffer or to the classifier. *)
Definition isFeed (e : Effect) : bool :=
  match e with EBufferUpdate _ | EDetect _ => true | _ => false end.

(** The classification result [r], handled in world [w], reaches the chat. *)
Definition notifiesChat (r : StateResult) (w : World) : Prop :=
  existsb isSendText (effects (handleStateChange r) w) = true.

(** The world a successful [main] leaves behind (or the world of an exited
    process, when a startup call fails). *)
Definition started : World := exec main (world0 []).

(** The calls one turn of the event loop appends to the trace. *)
Definition added (ev : Event) (w : World) : list Effect :=
  skipn (length (trace w)) (trace (step ev w)).



(** A step of the shutdown procedure: cancelling a timer or calling a
    collaborator. *)
Definition isShutdownStep (e : Effect) : bool :=
  match e with EClearTimeout _ | ECall _ _ => true | _ => false end.

(** The steps of the shutdown procedure in the order the specification gives
    them, each for a component that exists: (a) cancel the pending tick,
    (b) stop the process manager, (c) destroy the two idempotency caches (and
    stop the transcript monitor), (d) close the chat client. *)
Definition shutdownPlan (w : World) : list Effect :=
  match monitorTimeout w with Some t => [EClearTimeout t] | None => [] end
  ++ (if has processManager w then [ECall processManager "stop"] else [])
  ++ (if has deduplicator w then [ECall deduplicator "destroy"] else [])
  ++ (if has messageHistory w then [ECall messageHistory "destroy"] else [])
  ++ (if has transcriptMonitor w then [ECall transcriptMonitor "stop"] else [])
  ++ (if has discordClient w then [ECall discordClient "destroy"] else []).

(** A call that belongs to an orderly shutdown: cancelling a timer, stopping
    or destroying a component. *)
Definition isTeardown (e : Effect) : bool :=
  match e with
  | EClearTimeout _ => true
  | ECall _ method => String.eqb method "stop" || String.eqb method "destroy"
  | _ => false
  end.

Definition isExit (e : Effect) : bool :=
  match e with EExit _ => true | _ => false end.







(** Any event but ['error'] on a sampling process. *)
Definition noError (ev : Event) : bool :=
  match ev with ProcError _ => false | _ => true end.

(** At most one tick is pending or one sample in flight, never both, and
    nothing is pending or in flight before the chat client is ready. *)
Definition onePoll (w : World) : Prop :=
  length (timers w) + length (procs w) <= 1
  /\ (isDiscordConnected w = false -> timers w = [] /\ procs w = []).

(** The computation [c] leaves the component [f] of the world as it found
    it, however it ends. *)
Definition keeps {A X : Type} (f : World -> X) (c : M A) : Prop :=
  forall w, f (snd (c w)) = f w.


(** What a successful [main] does last: it registers the five listeners of the
    chat client, logs in, and only then registers the four listeners of the
    process. *)
Definition registration : list Effect :=
  [EOn "discordClient" "ClientReady"; EOn "discordClient" "MessageCreate";
   EOn "discordClient" "InteractionCreate"; EOn "discordClient" "Error";
   EOn "discordClient" "Warn"; ELog Info MsgConnecting;
   ECall discordClient "login"; ELog Success MsgStarted;
   EOn "process" "SIGINT"; EOn "process" "SIGTERM";
   EOn "process" "uncaughtException"; EOn "process" "unhandledRejection"].

Definition isOn (e : Effect) : bool :=
  match e with EOn _ _ => true | _ => false end.


End Model.

Arguments Ok {A} a.
Arguments Thrown {A}.
Arguments Exited {A}.

(** ** Slash commands

    The command table and [registerCommands] of [discord-commands.js], and
    [handleInteraction] of [index-discord.js] with the two closures it builds
    over the interaction, [interactionSendText] and the [sendHelp] override. *)

(** *** The command table *)

Record OptionDef := { opt_name : string; opt_required : bool }.

(** What [SlashCommandBuilder] is given for one command. *)
Record CommandDef := {
  cmd_name : string;
  cmd_description : string;
  cmd_options : list OptionDef }.

(** The [commands] array. *)
Definition commands : list CommandDef :=
  [ {| cmd_name := "switch"; cmd_description := "列出或切换 tmux 会话";
       cmd_options := [{| opt_name := "name"; opt_required := false |}] |};
    {| cmd_name := "tab"; cmd_description := "选中指定 tab";
       cmd_options := [{| opt_name := "numbers"; opt_required := true |}] |};
    {| cmd_name := "show"; cmd_description := "显示当前 tmux 会话输出";
       cmd_options := [] |};
    {| cmd_name := "new"; cmd_description := "创建新项目会话";
       cmd_options := [{| opt_name := "name"; opt_required := true |}] |};
    {| cmd_name := "kill"; cmd_description := "杀掉当前 tmux 会话";
       cmd_options := [] |};
    {| cmd_name := "help"; cmd_description := "显示帮助信息"; cmd_options := [] |};
    {| cmd_name := "history"; cmd_description := "查看命令历史"; cmd_options := [] |};
    {| cmd_name := "status"; cmd_description := "显示系统状态"; cmd_options := [] |};
    {| cmd_name := "config"; cmd_description := "查看当前配置"; cmd_options := [] |};
    {| cmd_name := "watch"; cmd_description := "实时跟随输出"; cmd_options := [] |};
    {| cmd_name := "clear"; cmd_description := "清空缓冲区"; cmd_options := [] |};
    {| cmd_name := "dedupstats"; cmd_description := "显示去重器统计信息";
       cmd_options := [] |};
    {| cmd_name := "reset"; cmd_description := "清除 Claude Code context";
       cmd_options := [] |} ].

(** *** Values of an interaction *)

(** A discord.js interaction, as far as [handleInteraction] reads it;
    [options] holds the string options the user filled in. *)
Record Interaction := {
  isChatInputCommand : bool;
  interaction_channelId : string;
  commandName : string;
  options : list (string * string) }.

(** [interaction.options.getString(name)]: the value, or [null]. *)
Fixpoint getString (name : string) (opts : list (string * string)) : option string :=
  match opts with
  | [] => None
  | (n, v) :: opts' => if String.eqb n name then Some v else getString name opts'
  end.

(** The functions of [handlers/command.js] the dispatcher calls, with the
    arguments it passes besides the context. *)
Inductive Handler :=
| handleSwitchTo (name : string)
| handleSwitchList
| handleTab (numbers : option string)
| handleShow
| handleNew (name : option string)
| handleKill
| handleHelp
| handleHistory
| handleStatus (monitorState : string)
| handleConfig
| handleWatch
| handleClear
| handleDedupStats
| handleReset.

(** A text handed to [interactionSendText]: one a command handler made up, the
    unknown-command notice, or the plain-text help the [sendHelp] override
    falls back to. *)
Inductive OutMsg :=
| OutRaw (t : jsstring)
| OutUnknownCommand (name : string)
| OutHelpFallback.

(** What is passed to [editReply], [followUp] or [reply]: a chunk of a text,
    the help embed, or the command-failed notice. *)
Inductive ReplyBody :=
| BodyChunk (c : jsstring)
| BodyHelpEmbed
| BodyFailure.

(** What a command handler does with the context it is given, as far as this
    module can see: it calls [ctx.sendText] and [ctx.messenger.sendHelp], is
    told how each call went ([true]: it threw; [None]: it threw), and in the
    end returns or throws. *)
Inductive Script :=
| SReturn
| SThrow
| SSendText (t : jsstring) (k : bool -> Script)
| SSendHelp (k : option bool -> Script).

Inductive Route :=
| applicationCommands (clientId : string)
| applicationGuildCommands (clientId guildId : string).

Inductive ILogMsg :=
| IMsgCommand (name : string)
| IMsgInteractionFailed
| IMsgReplyFailed
| IMsgGlobalCleared
| IMsgRegistering (n : nat) (guildId : string)
| IMsgRegistered (n : nat)
| IMsgRegistrationFailed.

(** Calls that leave the two functions, in the order they are made. *)
Inductive IEffect :=
| ILog (lvl : Level) (msg : ILogMsg)
| IDeferReply                          (* interaction.deferReply() *)
| IEditReply (b : ReplyBody)           (* interaction.editReply(b) *)
| IFollowUp (b : ReplyBody)            (* interaction.followUp(b) *)
| IReply (b : ReplyBody)               (* interaction.reply(b) *)
| IImportEmbed                         (* import('discord.js') and the embed built from it *)
| IHandler (h : Handler)               (* commands.h(interactionCtx, ..) is entered *)
| IRestPut (r : Route) (body : list CommandDef).  (* rest.put(r, { body }) *)

(** The collaborators of the two functions.  [handlerScript] is what a
    command handler does; [routerMonitorState] is [router.context.monitorState],
    or [None] while [router] is [null]. *)
Class InteractionCollaborators := {
  splitMessage : OutMsg -> list jsstring;
  handlerScript : Handler -> Script;
  routerMonitorState : option string;
  ifails : list IEffect -> IEffect -> bool }.

Section Interactions.
Context {env : Collaborators} {ienv : InteractionCollaborators}.

(** The [replied] variable of the closures, the [deferred] and [replied]
    properties of the interaction object (discord.js sets the first when
    [deferReply] resolves, the second when [reply] or [editReply] resolves),
    and the calls made so far. *)
Record IWorld := {
  replied : bool;
  i_deferred : bool;
  i_replied : bool;
  itrace : list IEffect }.

Definition set_replied v w :=
  {| replied := v; i_deferred := i_deferred w; i_replied := i_replied w;
     itrace := itrace w |}.
Definition set_i_deferred v w :=
  {| replied := replied w; i_deferred := v; i_replied := i_replied w;
     itrace := itrace w |}.
Definition set_i_replied v w :=
  {| replied := replied w; i_deferred := i_deferred w; i_replied := v;
     itrace := itrace w |}.
Definition set_itrace v w :=
  {| replied := replied w; i_deferred := i_deferred w; i_replied := i_replied w;
     itrace := v |}.

(** An interaction nothing has been done with yet. *)
Definition freshInteraction (tr : list IEffect) : IWorld :=
  {| replied := false; i_deferred := false; i_replied := false; itrace := tr |}.

Definition I (A : Type) := IWorld -> Outcome A * IWorld.

Definition iret {A} (a : A) : I A := fun w => (Ok a, w).

Definition ibind {A B} (c : I A) (k : A -> I B) : I B :=
  fun w => match c w with
           | (Ok a, w') => k a w'
           | (Thrown, w') => (Thrown, w')
           | (Exited, w') => (Exited, w')
           end.

Notation "x <- c ;; k" := (ibind c (fun x => k))
  (at level 61, c at next level, right associativity).
Notation "c ;; k" := (ibind c (fun _ => k))
  (at level 61, right associativity).

Definition itry {A} (body handler : I A) : I A :=
  fun w => match body w with
           | (Thrown, w') => handler w'
           | r => r
           end.

Definition ithrow {A} : I A := fun w => (Thrown, w).
Definition iget {A} (f : IWorld -> A) : I A := fun w => (Ok (f w), w).
Definition imodify (f : IWorld -> IWorld) : I unit := fun w => (Ok tt, f w).

Definition icall (e : IEffect) : I unit :=
  fun w => (if ifails (itrace w) e then Thrown else Ok tt,
            set_itrace (itrace w ++ [e]) w).

Definition ilog (lvl : Level) (msg : ILogMsg) : I unit :=
  imodify (fun w => set_itrace (itrace w ++ [ILog lvl msg]) w).

(** [await interaction.deferReply()] *)
Definition deferReply : I unit :=
  icall IDeferReply ;; imodify (set_i_deferred true).

(** [await interaction.editReply(b)] *)
Definition editReply (b : ReplyBody) : I unit :=
  icall (IEditReply b) ;; imodify (set_i_replied true).

(** [await interaction.reply(b)] *)
Definition reply (b : ReplyBody) : I unit :=
  icall (IReply b) ;; imodify (set_i_replied true).

(** [await interaction.followUp(b)] *)
Definition followUp (b : ReplyBody) : I unit := icall (IFollowUp b).

(** The [for] loop of [interactionSendText] over the chunks. *)
Fixpoint sendChunks (chunks : list jsstring) : I unit :=
  match chunks with
  | [] => iret tt
  | chunk :: chunks' =>
      r <- iget replied ;;
      (if negb r then
         editReply (BodyChunk chunk) ;;
         imodify (set_replied true)
       else followUp (BodyChunk chunk)) ;;
      sendChunks chunks'
  end.

(** [interactionSendText(text)] *)
Definition interactionSendText (text : OutMsg) : I unit :=
  sendChunks (splitMessage text).

(** The [sendHelp] override; the result is the [success] property of what it
    returns. *)
Definition sendHelp : I bool :=
  itry
    (icall IImportEmbed ;;
     r <- iget replied ;;
     (if negb r then
        editReply BodyHelpEmbed ;;
        imodify (set_replied true)
      else followUp BodyHelpEmbed) ;;
     iret true)
    (interactionSendText OutHelpFallback ;;
     iret false).

(** A command handler at work on the context of this interaction. *)
Fixpoint runScript (s : Script) : I unit :=
  match s with
  | SReturn => iret tt
  | SThrow => ithrow
  | SSendText t k =>
      fun w => match interactionSendText (OutRaw t) w with
               | (Ok _, w') => runScript (k false) w'
               | (Thrown, w') => runScript (k true) w'
               | (Exited, w') => (Exited, w')
               end
  | SSendHelp k =>
      fun w => match sendHelp w with
               | (Ok success, w') => runScript (k (Some success)) w'
               | (Thrown, w') => runScript (k None) w'
               | (Exited, w') => (Exited, w')
               end
  end.

(** [await commands.h(interactionCtx, ..)] *)
Definition runHandler (h : Handler) : I unit :=
  imodify (fun w => set_itrace (itrace w ++ [IHandler h]) w) ;;
  runScript (handlerScript h).

(** Truthiness of a string option as [if (name)] tests it. *)
Definition given (v : option string) : option string :=
  match v with
  | Some s => if String.eqb s "" then None else Some s
  | None => None
  end.

(** [router ? router.context.monitorState : 'idle'] *)
Definition contextMonitorState : string :=
  match routerMonitorState with Some s => s | None => "idle" end.

(** The [switch (commandName)]: the handler a command name leads to, [None]
    for the [default] branch. *)
Definition route (i : Interaction) : option Handler :=
  let name := commandName i in
  if String.eqb name "switch" then
    Some (match given (getString "name" (options i)) with
          | Some n => handleSwitchTo n
          | None => handleSwitchList
          end)
  else if String.eqb name "tab" then Some (handleTab (getString "numbers" (options i)))
  else if String.eqb name "show" then Some handleShow
  else if String.eqb name "new" then Some (handleNew (getString "name" (options i)))
  else if String.eqb name "kill" then Some handleKill
  else if String.eqb name "help" then Some handleHelp
  else if String.eqb name "history" then Some handleHistory
  else if String.eqb name "status" then Some (handleStatus contextMonitorState)
  else if String.eqb name "config" then Some handleConfig
  else if String.eqb name "watch" then Some handleWatch
  else if String.eqb name "clear" then Some handleClear
  else if String.eqb name "dedupstats" then Some handleDedupStats
  else if String.eqb name "reset" then Some handleReset
  else None.

(** The [catch] block of [handleInteraction]. *)
Definition failureNotice : I unit :=
  ilog Error IMsgInteractionFailed ;;
  itry
    (d <- iget i_deferred ;;
     r <- iget i_replied ;;
     if d || r then followUp BodyFailure else reply BodyFailure)
    (ilog Error IMsgReplyFailed).

(** [handleInteraction(interaction)], run to its end. *)
Definition handleInteraction (i : Interaction) : I unit :=
  itry
    (if negb (isChatInputCommand i) then iret tt
     else if negb (String.eqb (interaction_channelId i) (discord_channelId config))
     then iret tt
     else
       ilog Info (IMsgCommand (commandName i)) ;;
       deferReply ;;
       imodify (set_replied false) ;;
       match route i with
       | Some h => runHandler h
       | None => interactionSendText (OutUnknownCommand (commandName i))
       end)
    failureNotice.

(** [registerCommands(clientId, guildId, token)] of [discord-commands.js]. *)
Definition registerCommands (clientId guildId : string) : I unit :=
  itry
    (icall (IRestPut (applicationCommands clientId) []) ;;
     ilog Info IMsgGlobalCleared ;;
     ilog Info (IMsgRegistering (length commands) guildId) ;;
     icall (IRestPut (applicationGuildCommands clientId guildId) commands) ;;
     ilog Success (IMsgRegistered (length commands)))
    (ilog Error IMsgRegistrationFailed ;;
     ithrow).

(** *** Observations on interactions *)

(** The calls a run appends to the trace. *)
Definition iadded {A} (c : I A) (w : IWorld) : list IEffect :=
  skipn (length (itrace w)) (itrace (snd (c w))).

(** A call that answers the user. *)
Definition isAnswer (e : IEffect) : bool :=
  match e with IEditReply _ | IFollowUp _ | IReply _ => true | _ => false end.

Definition isReply (e : IEffect) : bool :=
  match e with IReply _ => true | _ => false end.

(** A call the two closures make. *)
Definition closureEffect (e : IEffect) : bool :=
  match e with IEditReply _ | IFollowUp _ | IImportEmbed => true | _ => false end.

(** How [bodies] reach the user when [r] tells whether the deferred reply has
    been edited already: the first one edits it, the others follow up. *)
Definition deliver (r : bool) (bodies : list ReplyBody) : list IEffect :=
  match bodies with
  | [] => []
  | b :: bodies' =>
      (if r then IFollowUp b else IEditReply b) :: map IFollowUp bodies'
  end.

(** What a handler sends, and whether it throws in the end, when no call
    fails. *)
Fixpoint scriptBodies (s : Script) : list ReplyBody :=
  match s with
  | SReturn | SThrow => []
  | SSendText t k => map BodyChunk (splitMessage (OutRaw t)) ++ scriptBodies (k false)
  | SSendHelp k => BodyHelpEmbed :: scriptBodies (k (Some true))
  end.

Fixpoint scriptThrows (s : Script) : bool :=
  match s with
  | SReturn => false
  | SThrow => true
  | SSendText _ k => scriptThrows (k false)
  | SSendHelp k => scriptThrows (k (Some true))
  end.

(** The interaction passes the two guards at the head of
    [handleInteraction]. *)
Definition handled (i : Interaction) : bool :=
  isChatInputCommand i
  && String.eqb (interaction_channelId i) (discord_channelId config).

(** A computation of the closures: it does not end the process, leaves the
    [deferred] property alone and makes closure calls only. *)
Definition closureRun {A} (c : I A) : Prop :=
  forall w,
    fst (c w) <> Exited
    /\ i_deferred (snd (c w)) = i_deferred w
    /\ exists es, itrace (snd (c w)) = itrace w ++ es
                  /\ forallb closureEffect es = true.

(** What the handler of the interaction sends, and whether it throws in the
    end, when no call fails; the [default] branch sends the unknown-command
    notice. *)
Definition interactionBodies (i : Interaction) : list ReplyBody :=
  match route i with
  | Some h => scriptBodies (handlerScript h)
  | None => map BodyChunk (splitMessage (OutUnknownCommand (commandName i)))
  end.

Definition interactionThrows (i : Interaction) : bool :=
  match route i with
  | Some h => scriptThrows (handlerScript h)
  | None => false
  end.

(** The names of the options the command table registers for a command. *)
Definition registeredOptions (name : string) : list string :=
  match find (fun c => String.eqb (cmd_name c) name) commands with
  | Some c => map opt_name (cmd_options c)
  | None => []
  end.

(** The entry of the handler a command name leads to, if any. *)
Definition entered (i : Interaction) : list IEffect :=
  match route i with
  | Some h => [IHandler h]
  | None => []
  end.

(** How a run of [handleInteraction] can end after the handler: nothing more,
    or the failure is logged and the failure notice follows up (and the
    failure of that, too, is only logged). *)
Definition failureTail (tail : list IEffect) : Prop :=
  tail = []
  \/ tail = [ILog Error IMsgInteractionFailed; IFollowUp BodyFailure]
  \/ tail = [ILog Error IMsgInteractionFailed; IFollowUp BodyFailure;
             ILog Error IMsgReplyFailed].

Definition nonempty {A} (l : list A) : bool :=
  match l with [] => false | _ :: _ => true end.

End Interactions.

(** ** Concrete collaborators, for running the model *)

Definition sampleConfig : Config :=
  {| discord_channelId := "chan-1"; monitor_pollInterval := 2000;
     deduplication_ttl := 300000; deduplication_maxSize := 1000 |}.

(** A stateless detector that settles every pass to [o], a fixed poll
    interval, and calls that throw exactly when [failing] says so. *)
Definition sampleEnv (o : DetectOutcome) (failing : Effect -> bool)
    (session : option string) : Collaborators :=
  {| config := sampleConfig;
     StateDetector := unit;
     detect := fun _ _ => (o, tt);
     getPollInterval := fun _ => 1000%N;
     getCurrentState := fun _ => "idle";
     newStateDetector := tt;
     cleanForNotification := fun s n => firstn n s;
     initialSession := session;
     autoSelectSession := fun s => s;
     guildKnown := true;
     isProduction := false;
     fails := fun _ e => failing e |}.

Definition neverFails (e : Effect) : bool := false.

Definition quietEnv : Collaborators :=
  sampleEnv (Resolved None) neverFails (Some "main").

(** "hi" sent by a user in the configured channel. *)
Definition sampleMessage : Message :=
  {| author_bot := false; channelId := "chan-1"; content := [104; 105]%N;
     msg_id := "42" |}.




(** A classification result of type [error]. *)
Definition errorResult : StateResult :=
  {| sr_type := "error"; sr_content := Some [69; 114; 114]%N; sr_timestamp := 0 |}.

(** "hi" sent by a bot. *)
Definition botMessage : Message :=
  {| author_bot := true; channelId := "chan-1"; content := [104; 105]%N;
     msg_id := "43" |}.

(** [router.route] rejects. *)
Definition routeFailsEnv : Collaborators :=
  sampleEnv (Resolved None) isRoute (Some "main").



(** The service is connected and its first sample is in flight. *)
Definition sampling {env : Collaborators} : World :=
  run [ClientReady; TimerFired 0] started.

Definition firstSample : Proc :=
  {| pid := 1; target := Some "main"; newBuffer := [] |}.





(** The world after [sampleMessage] has been delivered and its routing has
    failed. *)
Definition routeFailed : World :=
  step (env := routeFailsEnv) (MessageCreate 1000 sampleMessage) started.

(** The tmux binary cannot be spawned: the child emits ['error'] and then
    ['close']; both listeners schedule a tick, both ticks fire. *)
Definition overlapTrace : list Event :=
  [ClientReady; TimerFired 0; ProcError 1; ProcClose 1; TimerFired 2; TimerFired 3].




(** Events after the first sample is in flight, among them its spawn failure. *)
Definition spawnFailure : list Event := [ProcError 1; ProcClose 1].

(** A run without spawn failure: ready, first tick, the sample closes, the
    next tick. *)
Definition quietRun : list Event :=
  [ClientReady; TimerFired 0; ProcClose 1; TimerFired 2].

(** Handlers for running the dispatcher: [handleHelp] sends the help embed,
    [handleKill] sends "ok", then the help, then throws, every other handler
    sends "ok". *)
Definition sampleScript (h : Handler) : Script :=
  match h with
  | handleHelp => SSendHelp (fun _ => SReturn)
  | handleKill =>
      SSendText [111; 107]%N (fun _ => SSendHelp (fun _ => SThrow))
  | _ => SSendText [111; 107]%N (fun _ => SReturn)
  end.

(** Every text goes out as one chunk, the router is idle, and calls on the
    interaction throw exactly when [failing] says so. *)
Definition sampleIEnv (failing : IEffect -> bool) : InteractionCollaborators :=
  {| splitMessage := fun m => match m with
                              | OutRaw t => [t]
                              | OutUnknownCommand _ => [[63]%N]
                              | OutHelpFallback => [[104]%N]
                              end;
     handlerScript := sampleScript;
     routerMonitorState := Some "idle";
     ifails := fun _ e => failing e |}.

Definition quietIEnv : InteractionCollaborators := sampleIEnv (fun _ => false).

(** The interaction token has expired: [deferReply] rejects. *)
Definition deferFails (e : IEffect) : bool :=
  match e with IDeferReply => true | _ => false end.

Definition expiredIEnv : InteractionCollaborators := sampleIEnv deferFails.

(** [/help] in the configured channel. *)
Definition helpCommand : Interaction :=
  {| isChatInputCommand := true; interaction_channelId := "chan-1";
     commandName := "help"; options := [] |}.

(** [/kill] in the configured channel. *)
Definition killCommand : Interaction :=
  {| isChatInputCommand := true; interaction_channelId := "chan-1";
     commandName := "kill"; options := [] |}.

(** [/help] in another channel. *)
Definition foreignCommand : Interaction :=
  {| isChatInputCommand := true; interaction_channelId := "chan-2";
     commandName := "help"; options := [] |}.

(** [/switch name:main], and the same with an option the table does not
    know. *)
Definition switchCommand : Interaction :=
  {| isChatInputCommand := true; interaction_channelId := "chan-1";
     commandName := "switch"; options := [("name", "main")] |}.

Definition switchCommandExtra : Interaction :=
  {| isChatInputCommand := true; interaction_channelId := "chan-1";
     commandName := "switch"; options := [("force", "yes"); ("name", "main")] |}.

(** The dynamic import of the embed builder rejects. *)
Definition importFails (e : IEffect) : bool :=
  match e with IImportEmbed => true | _ => false end.

Definition noEmbedIEnv : InteractionCollaborators := sampleIEnv importFails.

(** ** Properties *)

Section Properties.
Context {env : Collaborators}.

Lemma skipn_length_app {A} (l x : list A) : skipn (length l) (l ++ x) = x.
Proof.
  induction l as [|a l IH]; simpl; [reflexivity | exact IH].
Qed.

Lemma trimStart_whitespace s :
  forallb isWhiteSpace s = true -> trimStart s = [].
Proof.
  induction s as [|c s IH]; simpl; [reflexivity|].
  intros H. apply andb_true_iff in H as [Hc Hs].
  rewrite Hc. exact (IH Hs).
Qed.

Lemma isBlank_whitespace s :
  forallb isWhiteSpace s = true -> isBlank s = true.
Proof.
  intros H. unfold isBlank, trim.
  rewrite (trimStart_whitespace s H). simpl.
  apply orb_true_r.
Qed.

(** *** The idempotency cache *)

Lemma isProcessed_In k t c :
  In {| key := k; firstSeen := t |} c -> Dedup.isProcessed k c = true.
Proof.
  intros H. unfold Dedup.isProcessed. apply existsb_exists.
  eexists; split; [exact H | simpl; apply String.eqb_refl].
Qed.

Lemma markProcessed_fresh n now k c :
  Dedup.isProcessed k c = false ->
  In {| key := k; firstSeen := now |} (Dedup.markProcessed n now k c).
Proof.
  intros H. unfold Dedup.markProcessed. rewrite H.
  apply in_or_app. right. left. reflexivity.
Qed.

Lemma markProcessed_present n now k c :
  Dedup.isProcessed k c = true -> Dedup.markProcessed n now k c = c.
Proof.
  intros H. unfold Dedup.markProcessed. rewrite H. reflexivity.
Qed.

Lemma cleanup_keeps ttl now k t c :
  (now - t <= ttl)%Z ->
  In {| key := k; firstSeen := t |} c ->
  In {| key := k; firstSeen := t |} (Dedup.cleanup ttl now c).
Proof.
  intros Hage Hin. unfold Dedup.cleanup. apply filter_In.
  split; [exact Hin | simpl; apply Z.leb_le; exact Hage].
Qed.

(** *** Inbound messages *)

Lemma handle_rejected now m w :
  accepted m = false -> handleDiscordMessage now m w = (Ok tt, w).
Proof.
  unfold accepted, handleDiscordMessage, try_catch, ret.
  destruct (author_bot m); [reflexivity|].
  destruct (String.eqb (channelId m) (discord_channelId config)); [|reflexivity].
  destruct (isBlank (content m)); [reflexivity|]. discriminate.
Qed.

Lemma handle_duplicate now m w :
  accepted m = true ->
  Dedup.isProcessed (eventId m) (cache w) = true ->
  handleDiscordMessage now m w
  = (Ok tt, set_trace (trace w ++ [EIsProcessed (eventId m);
                                   ELog Info (MsgDuplicateEvent (eventId m))]) w).
Proof.
  unfold accepted. intros Hacc Hdup.
  apply andb_true_iff in Hacc as [Hacc Hblank].
  apply andb_true_iff in Hacc as [Hbot Hchan].
  apply negb_true_iff in Hbot, Hblank.
  unfold handleDiscordMessage, try_catch, bind, get, emit, modify, log, emit, modify.
  rewrite Hbot, Hchan, Hblank. simpl. rewrite Hdup. simpl.
  rewrite <- app_assoc. reflexivity.
Qed.

Lemma handle_first now m w :
  accepted m = true ->
  Dedup.isProcessed (eventId m) (cache w) = false ->
  handleDiscordMessage now m w
  = (Ok tt,
     set_cache (Dedup.markProcessed (deduplication_maxSize config) now
                  (eventId m) (cache w))
       (set_trace (trace w ++ firstDelivery (trace w) m) w)).
Proof.
  unfold accepted. intros Hacc Hdup.
  apply andb_true_iff in Hacc as [Hacc Hblank].
  apply andb_true_iff in Hacc as [Hbot Hchan].
  apply negb_true_iff in Hbot, Hblank.
  unfold handleDiscordMessage, firstDelivery, try_catch, bind, get, call,
    log, emit, modify.
  rewrite Hbot, Hchan, Hblank. simpl. rewrite Hdup. simpl.
  repeat rewrite <- app_assoc. simpl.
  destruct (fails _ _); simpl; repeat rewrite <- app_assoc; reflexivity.
Qed.

Lemma step_message now m w :
  exited w = None ->
  step (MessageCreate now m) w = snd (handleDiscordMessage now m w).
Proof.
  intros Hrun. unfold step. rewrite Hrun.
  unfold exec, try_catch, dispatch.
  destruct (accepted m) eqn:Hacc.
  - destruct (Dedup.isProcessed (eventId m) (cache w)) eqn:Hdup.
    + rewrite (handle_duplicate now m w Hacc Hdup). reflexivity.
    + rewrite (handle_first now m w Hacc Hdup). reflexivity.
  - rewrite (handle_rejected now m w Hacc). reflexivity.
Qed.

(** C9.  A message written by a bot, or posted in another channel than the
    configured one, or whose content is empty or consists of white space only,
    leaves the world as it was: the listener returns normally, the trace gains
    no call (so the deduplicator is neither asked nor told anything and
    nothing is routed), and the cache keeps its entries. *)
Theorem filtered_message_has_no_effect (now : Z) (m : Message) (w : World) :
  author_bot m = true
  \/ channelId m <> discord_channelId config
  \/ forallb isWhiteSpace (content m) = true ->
  handleDiscordMessage now m w = (Ok tt, w)
  /\ step (MessageCreate now m) w = w.
Proof.
  intros H.
  assert (Hrej : accepted m = false).
  { unfold accepted. destruct H as [Hb | [Hc | Hs]].
    - rewrite Hb. reflexivity.
    - apply String.eqb_neq in Hc. rewrite Hc, andb_false_r. reflexivity.
    - rewrite (isBlank_whitespace _ Hs). apply andb_false_r. }
  split; [exact (handle_rejected now m w Hrej)|].
  unfold step. destruct (exited w); [reflexivity|].
  unfold exec, try_catch, dispatch.
  rewrite (handle_rejected now m w Hrej). reflexivity.
Qed.

(** *** Redelivery *)

Lemma eventId_same m m' : msg_id m' = msg_id m -> eventId m' = eventId m.
Proof. unfold eventId. intros ->. reflexivity. Qed.

Lemma filter_isRoute_firstDelivery tr m :
  filter isRoute (firstDelivery tr m) = [ERoute (content m)].
Proof.
  unfold firstDelivery. simpl. destruct (fails _ _); reflexivity.
Qed.

Lemma filter_isRoute_duplicates m es :
  Forall (dropsDuplicate m) es -> filter isRoute es = [].
Proof.
  induction 1 as [|e es He _ IH]; [reflexivity|].
  simpl. rewrite IH. destruct He as [-> | ->]; reflexivity.
Qed.

(** While the entry of the first delivery is in the cache, a redelivery or a
    cleanup pass within the TTL keeps it there and routes nothing. *)
Lemma redelivery_step m t0 ev w :
  exited w = None ->
  In {| key := eventId m; firstSeen := t0 |} (cache w) ->
  isRedelivery m t0 ev = true ->
  exited (step ev w) = None
  /\ In {| key := eventId m; firstSeen := t0 |} (cache (step ev w))
  /\ exists es, trace (step ev w) = trace w ++ es /\ Forall (dropsDuplicate m) es.
Proof.
  intros Hrun Hin Hev.
  destruct ev as [t|p c|p|p| |t m'|t|]; try discriminate Hev; simpl in Hev.
  - apply andb_true_iff in Hev as [Hev _].
    apply andb_true_iff in Hev as [Hid _].
    apply String.eqb_eq in Hid.
    rewrite (step_message t m' w Hrun).
    destruct (accepted m') eqn:Hacc.
    + rewrite handle_duplicate; [| exact Hacc |].
      * simpl. repeat split; try assumption.
        rewrite (eventId_same m m' Hid).
        eexists; split; [reflexivity|].
        constructor; [left; reflexivity|].
        constructor; [right; reflexivity | constructor].
      * rewrite (eventId_same m m' Hid). exact (isProcessed_In _ _ _ Hin).
    + rewrite (handle_rejected t m' w Hacc). simpl.
      repeat split; try assumption.
      exists []. rewrite app_nil_r. split; [reflexivity | constructor].
  - apply Z.leb_le in Hev.
    unfold step. rewrite Hrun. simpl.
    repeat split; try assumption.
    + apply cleanup_keeps; assumption.
    + exists []. rewrite app_nil_r. split; [reflexivity | constructor].
Qed.

Lemma run_cons ev evs w : run (ev :: evs) w = run evs (step ev w).
Proof. reflexivity. Qed.

Lemma redeliveries_run m t0 evs : forall w,
  exited w = None ->
  In {| key := eventId m; firstSeen := t0 |} (cache w) ->
  forallb (isRedelivery m t0) evs = true ->
  exists es, trace (run evs w) = trace w ++ es /\ Forall (dropsDuplicate m) es.
Proof.
  induction evs as [|ev evs IH]; intros w Hrun Hin Hevs.
  - exists []. simpl. rewrite app_nil_r. split; [reflexivity | constructor].
  - simpl in Hevs. apply andb_true_iff in Hevs as [Hev Hevs].
    destruct (redelivery_step m t0 ev w Hrun Hin Hev) as (Hrun' & Hin' & es1 & Htr1 & Hes1).
    destruct (IH (step ev w) Hrun' Hin' Hevs) as (es2 & Htr2 & Hes2).
    exists (es1 ++ es2). split.
    + rewrite run_cons, Htr2, Htr1, app_assoc. reflexivity.
    + apply Forall_app. split; assumption.
Qed.

(** With nothing but redeliveries and cleanup passes after it, the first
    delivery makes its calls, ending in the one call of [router.route]; every
    later delivery only asks [isProcessed] and logs the duplicate. *)
Lemma redeliveries_only_trace
    (w : World) (m : Message) (t0 : Z) (evs : list Event) :
  exited w = None ->
  accepted m = true ->
  Dedup.isProcessed (eventId m) (cache w) = false ->
  forallb (isRedelivery m t0) evs = true ->
  (exists dups,
      trace (run (MessageCreate t0 m :: evs) w)
      = trace w ++ firstDelivery (trace w) m ++ dups
      /\ Forall (dropsDuplicate m) dups)
  /\ filter isRoute (trace (run (MessageCreate t0 m :: evs) w))
     = filter isRoute (trace w) ++ [ERoute (content m)].
Proof.
  intros Hrun Hacc Hnew Hevs.
  assert (Hall : exists dups,
             trace (run (MessageCreate t0 m :: evs) w)
             = trace w ++ firstDelivery (trace w) m ++ dups
             /\ Forall (dropsDuplicate m) dups).
  { rewrite run_cons, (step_message t0 m w Hrun), (handle_first t0 m w Hacc Hnew).
    cbn [snd].
    match goal with |- context [run evs ?w1] => set (w1' := w1) end.
    destruct (redeliveries_run m t0 evs w1') as (es & Htr & Hes).
    - exact Hrun.
    - apply markProcessed_fresh. exact Hnew.
    - exact Hevs.
    - exists es. split; [| exact Hes].
      rewrite Htr. subst w1'. cbn [trace set_cache set_trace].
      rewrite <- app_assoc. reflexivity. }
  split; [exact Hall|].
  destruct Hall as (dups & Htr & Hdups).
  rewrite Htr, !filter_app, filter_isRoute_firstDelivery,
    (filter_isRoute_duplicates m dups Hdups), app_nil_r.
  reflexivity.
Qed.

(** C10.  For an accepted message that is not a duplicate, the listener calls
    [markProcessed] before it calls [router.route]; whether or not the routing
    call throws (when it does, the only further call is the error log line),
    the event id is in the cache afterwards, and redeliveries of the same id
    within the TTL add no routing call. *)
Theorem mark_precedes_route_and_survives_failure
    (now : Z) (m : Message) (w : World) (evs : list Event) :
  exited w = None ->
  accepted m = true ->
  Dedup.isProcessed (eventId m) (cache w) = false ->
  forallb (isRedelivery m now) evs = true ->
  let w1 := step (MessageCreate now m) w in
  let sent := [EIsProcessed (eventId m); EMarkProcessed (eventId m);
               ELog Info (MsgProcessing (substring0 50 (content m))
                                        (50 <? length (content m)));
               ERoute (content m)] in
  trace w1
  = trace w ++ sent ++ (if fails (trace w ++ removelast sent) (ERoute (content m))
                        then [ELog Error MsgMessageFailed] else [])
  /\ exited w1 = None
  /\ Dedup.isProcessed (eventId m) (cache w1) = true
  /\ filter isRoute (trace (run evs w1)) = filter isRoute (trace w1).
Proof.
  intros Hrun Hacc Hnew Hevs w1 sent.
  assert (Hw1 : w1 = set_cache (Dedup.markProcessed (deduplication_maxSize config) now
                                  (eventId m) (cache w))
                       (set_trace (trace w ++ firstDelivery (trace w) m) w)).
  { unfold w1. rewrite (step_message now m w Hrun), (handle_first now m w Hacc Hnew).
    reflexivity. }
  assert (Hin : In {| key := eventId m; firstSeen := now |} (cache w1)).
  { rewrite Hw1. cbn [cache set_cache set_trace].
    apply markProcessed_fresh. exact Hnew. }
  assert (Hrun1 : exited w1 = None) by (rewrite Hw1; exact Hrun).
  repeat split.
  - rewrite Hw1. reflexivity.
  - exact Hrun1.
  - exact (isProcessed_In _ _ _ Hin).
  - destruct (redeliveries_run m now evs w1 Hrun1 Hin Hevs) as (es & Htr & Hes).
    rewrite Htr, filter_app, (filter_isRoute_duplicates m es Hes), app_nil_r.
    reflexivity.
Qed.

(** *** State changes *)

(** Unfolds the monad of callbacks. *)
Ltac run_monad :=
  cbv beta iota delta [bind ret get modify emit call log try_catch when exec
                       effects exit armMonitorTimeout setTimeout clearTimeout
                       spawn runDetect];
  cbn [fst snd negb trace set_trace set_timers set_fresh set_procs set_cache
       set_exited set_detectorState set_monitorTimeout set_assigned
       set_isDiscordConnected set_currentSession
       assigned isDiscordConnected monitorTimeout currentSession detectorState
       cache timers procs fresh exited].

(** Brings a trace [((tr ++ a) ++ b) ++ ..] into the form [tr ++ (a ++ b ++ ..)]. *)
Ltac flatten_trace := repeat rewrite <- app_assoc; cbn [app].

Lemma handleStateChange_returns r w :
  exists es,
    handleStateChange r w
    = (Ok tt, set_trace (trace w ++ ELog Debug (MsgStateChange (sr_type r)) :: es) w)
    /\ filter isSendText es = notifications r
    /\ filter isStateChange es = []
    /\ filter isSetTimeout es = []
    /\ filter isFeed es = [].
Proof.
  unfold handleStateChange, notifications.
  destruct (String.eqb (sr_type r) "error") eqn:Herr.
  { apply String.eqb_eq in Herr. rewrite Herr. run_monad.
    exists []. repeat split; reflexivity. }
  destruct (existsb (String.eqb (sr_type r)) quietStates) eqn:Hquiet.
  { exists [ELog Debug (MsgNoNotification (sr_type r))]. run_monad. flatten_trace.
    destruct (String.eqb (sr_type r) "input_prompt") eqn:H1.
    { apply String.eqb_eq in H1. rewrite H1 in Hquiet. discriminate. }
    destruct (String.eqb (sr_type r) "completed") eqn:H2.
    { apply String.eqb_eq in H2. rewrite H2 in Hquiet. discriminate. }
    repeat split; reflexivity. }
  destruct (String.eqb (sr_type r) "input_prompt") eqn:H1.
  { run_monad. destruct (fails _ _); eexists; flatten_trace;
      (split; [reflexivity | repeat split; reflexivity]). }
  destruct (String.eqb (sr_type r) "completed") eqn:H2.
  { run_monad. destruct (fails _ _); eexists; flatten_trace;
      (split; [reflexivity | repeat split; reflexivity]). }
  run_monad. eexists; flatten_trace.
  split; [reflexivity | repeat split; reflexivity].
Qed.

(** C1 (as amended).  [handleStateChange] calls [messenger.sendText] exactly
    once when the type is [input_prompt] (with the cleaned prompt) or
    [completed], and not at all for any other type; in particular no
    notification is sent for [error]. *)
Theorem state_change_notifications (r : StateResult) (w : World) :
  filter isSendText (effects (handleStateChange r) w) = notifications r
  /\ (forall c t, notifications {| sr_type := "error"; sr_content := c;
                                   sr_timestamp := t |} = []).
Proof.
  split; [| reflexivity].
  destruct (handleStateChange_returns r w) as (es & Hrun & Hsend & _).
  unfold effects, exec. rewrite Hrun. cbn [snd trace set_trace].
  rewrite skipn_length_app. simpl. exact Hsend.
Qed.

(** *** The close listener *)

Lemma onClose_nonempty c b w :
  exists w' rest,
    onClose (c :: b) w = (Ok tt, w')
    /\ trace w' = trace w ++ EBufferUpdate (c :: b) :: EDetect (c :: b) :: rest
    /\ filter isFeed rest = []
    /\ filter isStateChange rest
       = match fst (detect (c :: b) (detectorState w)) with
         | Resolved (Some r) => [ELog Debug (MsgStateChange (sr_type r))]
         | _ => []
         end
    /\ filter isSendText rest
       = match fst (detect (c :: b) (detectorState w)) with
         | Resolved (Some r) => notifications r
         | _ => []
         end
    /\ length (filter isSetTimeout rest) = (if isDiscordConnected w then 1 else 0)
    /\ exited w' = exited w.
Proof.
  unfold onClose. run_monad.
  destruct (detect (c :: b) (detectorState w)) as [o d] eqn:Hd.
  run_monad.
  destruct (isDiscordConnected w); run_monad;
    destruct o as [[r|]|]; unfold onDetected; run_monad;
    try match goal with
        | |- context [handleStateChange r ?W] =>
            destruct (handleStateChange_returns r W) as (es & Hh & Hs1 & Hs2 & Hs3 & Hs4);
            rewrite Hh
        end;
    unfold has; run_monad;
    try destruct (existsb (Global_eqb router) (assigned w));
    run_monad; try destruct (fails _ _);
    (do 2 eexists; split; [reflexivity|]);
    run_monad; flatten_trace; (split; [reflexivity|]);
    repeat split; simpl;
    rewrite ?filter_app, ?Hs1, ?Hs2, ?Hs3, ?Hs4; simpl;
    rewrite ?app_nil_r; reflexivity.
Qed.

Lemma onClose_empty w :
  exists w',
    onClose [] w = (Ok tt, w')
    /\ trace w'
       = trace w ++ (if isDiscordConnected w
                     then [ESetTimeout (fresh w) (getPollInterval (detectorState w))]
                     else [])
    /\ exited w' = exited w.
Proof.
  unfold onClose. run_monad.
  destruct (isDiscordConnected w); run_monad; eexists;
    (split; [reflexivity|]); run_monad; rewrite ?app_nil_r; split; reflexivity.
Qed.

Lemma step_close p x w :
  exited w = None ->
  findProc p w = Some x ->
  step (ProcClose p) w = snd (onClose (newBuffer x) (dropProc p w)).
Proof.
  intros Hrun Hlive. unfold step. rewrite Hrun.
  unfold dispatch. run_monad. rewrite Hlive. run_monad.
  destruct (newBuffer x) as [|c b].
  - destruct (onClose_empty (dropProc p w)) as (w' & -> & _). reflexivity.
  - destruct (onClose_nonempty c b (dropProc p w)) as (w' & rest & -> & _).
    reflexivity.
Qed.


(** *** Scheduling of the next tick *)

(** A close alone schedules one tick while connected and none otherwise,
    whatever the sample and its classification were. *)
Lemma close_schedules p x w :
  exited w = None ->
  findProc p w = Some x ->
  exists es,
    trace (step (ProcClose p) w) = trace w ++ es
    /\ length (filter isSetTimeout es) = (if isDiscordConnected w then 1 else 0)
    /\ exited (step (ProcClose p) w) = None.
Proof.
  intros Hrun Hlive. rewrite (step_close p x w Hrun Hlive).
  destruct (newBuffer x) as [|c b].
  - destruct (onClose_empty (dropProc p w)) as (w' & -> & Htr & Hex).
    cbn [snd]. eexists. split; [exact Htr|].
    split; [| rewrite Hex; exact Hrun].
    cbn [isDiscordConnected dropProc set_procs].
    destruct (isDiscordConnected w); reflexivity.
  - destruct (onClose_nonempty c b (dropProc p w))
      as (w' & rest & -> & Htr & _ & _ & _ & Htimer & Hex).
    cbn [snd]. eexists. split; [exact Htr|].
    split; [| rewrite Hex; exact Hrun].
    simpl. exact Htimer.
Qed.

(** The error listener logs, and schedules a tick without looking at the
    connection flag; it sends nothing and leaves the process live. *)
Lemma step_error p x w :
  exited w = None ->
  findProc p w = Some x ->
  let w' := step (ProcError p) w in
  trace w' = trace w ++ [ELog Error MsgCaptureError;
                         ESetTimeout (fresh w) (getPollInterval (detectorState w))]
  /\ exited w' = None
  /\ findProc p w' = Some x
  /\ isDiscordConnected w' = isDiscordConnected w.
Proof.
  intros Hrun Hlive. unfold step. rewrite Hrun.
  unfold dispatch, onError. run_monad. rewrite Hlive. run_monad.
  flatten_trace. repeat split; assumption.
Qed.

(** C5 (the code at the failing input).  While connected, a sampling process
    that emits ['error'] and then ['close'] gets two next ticks scheduled, one
    by each listener. *)
Theorem error_then_close_schedules_two_ticks (w : World) (p : nat) (x : Proc) :
  exited w = None ->
  isDiscordConnected w = true ->
  findProc p w = Some x ->
  length (filter isSetTimeout (trace (run [ProcError p; ProcClose p] w)))
  = length (filter isSetTimeout (trace w)) + 2.
Proof.
  intros Hrun Hconn Hlive.
  destruct (step_error p x w Hrun Hlive) as (Htr1 & Hrun1 & Hlive1 & Hconn1).
  destruct (close_schedules p x _ Hrun1 Hlive1) as (es & Htr2 & Hn & _).
  rewrite Hconn1, Hconn in Hn.
  simpl. rewrite Htr2, Htr1, !filter_app, !length_app, Hn. simpl. lia.
Qed.

(** *** Pausing and starting *)



Lemma client_ready_first w :
  exited w = None ->
  isDiscordConnected w = false ->
  isDiscordConnected (step ClientReady w) = true
  /\ filter isSetTimeout (added ClientReady w)
     = (if isSet (currentSession w)
        then [ESetTimeout (fresh w) (monitor_pollInterval config)]
        else [])
  /\ timers (step ClientReady w)
     = timers w ++ (if isSet (currentSession w)
                    then [{| tid := fresh w; delay := monitor_pollInterval config |}]
                    else [])
  /\ procs (step ClientReady w) = procs w.
Proof.
  intros Hrun Hconn. unfold added, step. rewrite Hrun.
  unfold dispatch, onClientReady, startMonitorPolling. run_monad.
  rewrite Hconn. run_monad.
  destruct (fails _ _); run_monad;
    [| destruct guildKnown; run_monad; try destruct (fails _ _); run_monad ];
    (destruct (isSet (currentSession w)); run_monad; flatten_trace;
     rewrite skipn_length_app, ?app_nil_r; repeat split; reflexivity).
Qed.


(** *** Shutdown *)

(** Case analysis on the pending timer, on which components exist and on
    which calls throw, along the run of [shutdown]. *)
Lemma shutdown_runs w :
  exists es,
    trace (exec shutdown w) = trace w ++ es
    /\ timers (exec shutdown w)
       = match monitorTimeout w with
         | Some t => filter (fun x => negb (tid x =? t)) (timers w)
         | None => timers w
         end
    /\ exited (exec shutdown w) = Some 0%Z
    /\ procs (exec shutdown w) = procs w
    /\ isDiscordConnected (exec shutdown w) = isDiscordConnected w
    /\ fst (shutdown w) = Exited
    /\ (exists n, filter isShutdownStep es = firstn n (shutdownPlan w))
    /\ (In (ECall discordClient "destroy") (filter isShutdownStep es) ->
        filter isShutdownStep es = shutdownPlan w).
Proof.
  unfold exec. remember (shutdown w) as r eqn:Hr. symmetry in Hr. revert Hr.
  unfold shutdown.
  repeat first
    [ progress (unfold has; run_monad)
    | match goal with
      | |- context [existsb (Global_eqb ?g) (assigned w)] =>
          destruct (existsb (Global_eqb g) (assigned w)) eqn:?
      | |- context [fails ?tr ?e] => destruct (fails tr e)
      | |- context [match monitorTimeout w with _ => _ end] =>
          destruct (monitorTimeout w) as [t|] eqn:?
      end ].
  all: intros <-; run_monad; flatten_trace;
    eexists; (split; [reflexivity|]);
    (split; [reflexivity|]); (split; [reflexivity|]);
    (split; [reflexivity|]); (split; [reflexivity|]);
    (split; [reflexivity|]);
    unfold shutdownPlan, has;
    repeat match goal with
           | H : existsb _ _ = _ |- _ => rewrite H; clear H
           | H : monitorTimeout _ = _ |- _ => rewrite H; clear H
           end;
    cbn [filter isShutdownStep app].
  all: (split; [ match goal with
              | |- exists n, ?L = _ => exists (length L); reflexivity
              end |]).
  all: first [ intros _; reflexivity
                    | intros H; exfalso; simpl in H; intuition discriminate ].
Qed.



(** *** Startup *)

Lemma main_runs w :
  exists es,
    trace (exec main w) = trace w ++ es
    /\ filter isTeardown es = []
    /\ timers (exec main w) = timers w
    /\ procs (exec main w) = procs w
    /\ isDiscordConnected (exec main w) = isDiscordConnected w
    /\ ((fst (main w) = Ok tt
         /\ exited (exec main w) = exited w
         /\ filter isExit es = [])
        \/ (fst (main w) = Exited
            /\ exited (exec main w) = Some 1%Z
            /\ exists pre, es = pre ++ [ELog Error MsgStartFailed; EExit 1]
                           /\ filter isExit pre = [])).
Proof.
  unfold exec.
  remember (main w) as r eqn:Hr. symmetry in Hr. revert Hr.
  unfold main, construct.
  repeat first
    [ progress (unfold has; run_monad; cbn [existsb Global_eqb orb])
    | match goal with
      | |- context [fails ?tr ?e] => destruct (fails tr e)
      | |- context [match autoSelectSession ?s with _ => _ end] =>
          destruct (autoSelectSession s) as [name|]
      | |- context [isSet (Some ?s)] => destruct (isSet (Some s))
      end ].
  all: intros <-; run_monad; flatten_trace;
    eexists; (split; [reflexivity|]); (split; [reflexivity|]);
    (split; [reflexivity|]); (split; [reflexivity|]); (split; [reflexivity|]).
  all: first
    [ left; repeat split; reflexivity
    | right; (split; [reflexivity|]); (split; [reflexivity|]);
      match goal with
      | |- exists pre, ?L = _ /\ _ => exists (removelast (removelast L))
      end; split; reflexivity ].
Qed.


(** *** Redelivery among other traffic *)








(** *** One sample at a time, as long as no child emits ['error'] *)

Lemma onClose_polls buf w :
  fst (onClose buf w) = Ok tt
  /\ length (timers (exec (onClose buf) w))
     = length (timers w) + (if isDiscordConnected w then 1 else 0)
  /\ procs (exec (onClose buf) w) = procs w
  /\ isDiscordConnected (exec (onClose buf) w) = isDiscordConnected w.
Proof.
  unfold exec. remember (onClose buf w) as r eqn:Hr. symmetry in Hr. revert Hr.
  unfold onClose. destruct buf as [|c b]; run_monad.
  2: destruct (detect (c :: b) (detectorState w)) as [[[sr|]|] d]; run_monad;
     unfold onDetected.
  all: destruct (isDiscordConnected w) eqn:Hconn; run_monad;
    try match goal with
        | |- context [handleStateChange ?r ?W] =>
            destruct (handleStateChange_returns r W) as (es & -> & _)
        end;
    unfold has; run_monad;
    try destruct (existsb (Global_eqb router) (assigned w));
    run_monad; try destruct (fails _ _);
    intros <-; run_monad; rewrite ?length_app, ?Hconn; simpl;
    repeat split; try reflexivity; lia.
Qed.

Lemma single_pending {A} (f : A -> bool) (l : list A) :
  existsb f l = true -> length l <= 1 ->
  filter (fun x => negb (f x)) l = [].
Proof.
  destruct l as [|x [|y l]]; simpl; intros Hf Hlen; try discriminate; [| lia].
  rewrite orb_false_r in Hf. rewrite Hf. reflexivity.
Qed.

Lemma single_found {A} (f : A -> bool) (l : list A) (x : A) :
  find f l = Some x -> length l <= 1 ->
  filter (fun y => negb (f y)) l = [].
Proof.
  intros Hfind Hlen. apply single_pending; [| exact Hlen].
  apply existsb_exists. exists x. apply find_some in Hfind. exact Hfind.
Qed.

Lemma onePoll_step ev w :
  noError ev = true -> onePoll w -> onePoll (step ev w).
Proof.
  intros Hev (Hone & Hidle).
  destruct (exited w) eqn:Hrun; [unfold step; rewrite Hrun; split; assumption|].
  destruct ev as [t|p c|p|p| |t m|t|]; try discriminate Hev.
  - (* a tick fires *)
    unfold step. rewrite Hrun.
    unfold dispatch, scheduleNextPoll, dropTimer. run_monad.
    destruct (existsb (fun x => tid x =? t) (timers w)) eqn:Hpending; run_monad;
      [| split; assumption].
    destruct (isDiscordConnected w) eqn:Hconn; run_monad.
    + assert (Htimers : length (timers w) = 1).
      { destruct (timers w); [discriminate Hpending | simpl in *; lia]. }
      rewrite (single_pending _ _ Hpending) by lia.
      destruct (procs w); [| simpl in *; lia].
      split; [simpl; lia | intros H; unfold onePoll in *; simpl in H].
      rewrite Hconn in H. discriminate.
    + destruct (Hidle eq_refl) as [Hnone _]. rewrite Hnone in Hpending.
      discriminate.
  - (* output arrives *)
    unfold step. rewrite Hrun. unfold dispatch, onData, onePoll. run_monad.
    rewrite length_map. split; [exact Hone|].
    intros H. destruct (Hidle H) as [-> ->]. split; reflexivity.
  - (* a sample closes *)
    destruct (findProc p w) as [x|] eqn:Hlive.
    + rewrite (step_close p x w Hrun Hlive).
      destruct (onClose_polls (newBuffer x) (dropProc p w))
        as (_ & Htimers & Hprocs & Hconn).
      unfold exec in *. unfold onePoll. rewrite Hprocs, Hconn.
      cbn [dropProc set_procs procs timers isDiscordConnected] in *.
      assert (Hsome : length (procs w) = 1).
      { unfold findProc in Hlive. destruct (procs w); [discriminate|].
        simpl in *. lia. }
      unfold findProc in Hlive.
      rewrite (single_found _ _ _ Hlive) by lia.
      split.
      * rewrite Htimers. destruct (isDiscordConnected w); simpl; lia.
      * intros H. destruct (Hidle H) as [_ Hnone]. rewrite Hnone in Hsome.
        discriminate.
    + unfold step. rewrite Hrun. unfold dispatch. run_monad. rewrite Hlive.
      split; assumption.
  - (* the client is ready *)
    destruct (isDiscordConnected w) eqn:Hconn.
    + unfold step. rewrite Hrun. unfold dispatch. run_monad. rewrite Hconn.
      run_monad. split; [exact Hone | rewrite Hconn; exact Hidle].
    + destruct (client_ready_first w Hrun Hconn) as (Hflag & _ & Htimers & Hprocs).
      destruct (Hidle eq_refl) as [Ht Hp].
      unfold onePoll. rewrite Hflag, Htimers, Hprocs, Ht, Hp.
      split; [destruct (isSet (currentSession w)); simpl; lia | discriminate].
  - (* a chat message *)
    rewrite (step_message t m w Hrun).
    destruct (accepted m) eqn:Hacc.
    + destruct (Dedup.isProcessed (eventId m) (cache w)) eqn:Hdup.
      * rewrite (handle_duplicate t m w Hacc Hdup). split; assumption.
      * rewrite (handle_first t m w Hacc Hdup). split; assumption.
    + rewrite (handle_rejected t m w Hacc). split; assumption.
  - (* a cleanup pass *)
    unfold step. rewrite Hrun. split; assumption.
  - (* a signal *)
    destruct (shutdown_runs w)
      as (es & _ & Htimers & _ & Hprocs & Hconn & Hout & _).
    unfold step. rewrite Hrun. unfold dispatch, exec, try_catch in *.
    destruct (shutdown w) as [o w']. cbn [fst snd] in *. subst o.
    unfold onePoll. cbn [snd]. rewrite Htimers, Hprocs, Hconn.
    destruct (monitorTimeout w) as [t|]; [| split; assumption].
    pose proof (filter_length_le (fun x => negb (tid x =? t)) (timers w)) as Hle.
    split; [lia|].
    intros H. destruct (Hidle H) as [-> ->]. split; reflexivity.
Qed.

Lemma onePoll_started : onePoll started.
Proof.
  destruct (main_runs (world0 [])) as (_ & _ & _ & Htimers & Hprocs & Hconn & _).
  unfold started, onePoll. rewrite Htimers, Hprocs, Hconn.
  split; [simpl; lia | split; reflexivity].
Qed.

(** As long as no sampling process emits ['error'], the service never has more
    than one sample in flight, and never a pending tick next to a sample. *)
Lemma one_sample_without_error evs :
  forallb noError evs = true -> onePoll (run evs started).
Proof.
  assert (Hall : forall w, onePoll w -> forallb noError evs = true ->
                           onePoll (run evs w)).
  { induction evs as [|ev evs IH]; intros w Hw Hevs; [exact Hw|].
    simpl in Hevs. apply andb_true_iff in Hevs as [Hev Hevs].
    rewrite run_cons. apply IH; [apply onePoll_step; assumption | exact Hevs]. }
  intros Hevs. apply Hall; [exact onePoll_started | exact Hevs].
Qed.

(** *** What a listener leaves alone *)

Section Frame.
Context {X : Type} (f : World -> X).

Lemma keeps_ret {A} (a : A) : keeps f (ret a).
Proof. intros w. reflexivity. Qed.

Lemma keeps_bind {A B} (c : M A) (k : A -> M B) :
  keeps f c -> (forall a, keeps f (k a)) -> keeps f (bind c k).
Proof.
  intros Hc Hk w. unfold bind. specialize (Hc w).
  destruct (c w) as [[a| |] w']; cbn [snd] in *;
    [rewrite (Hk a w') | |]; exact Hc.
Qed.

Lemma keeps_try_catch (body handler : M unit) :
  keeps f body -> keeps f handler -> keeps f (try_catch body handler).
Proof.
  intros Hb Hh w. unfold try_catch. specialize (Hb w).
  destruct (body w) as [[a| |] w']; cbn [snd] in *;
    [| rewrite (Hh w') |]; exact Hb.
Qed.

Lemma keeps_when (b : bool) (c : M unit) : keeps f c -> keeps f (when b c).
Proof. intros Hc. destruct b; [exact Hc | apply keeps_ret]. Qed.

End Frame.

(** Splits a listener into its calls and settles each of them. *)
Ltac frame :=
  repeat first
    [ apply keeps_ret
    | apply keeps_bind; [| intros ?]
    | apply keeps_try_catch
    | apply keeps_when
    | match goal with
      | |- keeps _ (if ?b then _ else _) => destruct b
      | |- keeps _ (match ?x with _ => _ end) => destruct x
      end
    | (intros ?; unfold has; run_monad; repeat destruct (detect _ _);
       try destruct (fails _ _); reflexivity) ].

Lemma handleStateChange_keeps {X} (f : World -> X) r :
  (forall t w, f (set_trace t w) = f w) -> keeps f (handleStateChange r).
Proof.
  intros Hf. unfold handleStateChange, log, emit, call. frame.
  all: intros w; apply Hf.
Qed.

(** Unfolds the listeners down to the calls they make. *)
Ltac open_listeners :=
  unfold dispatch, scheduleNextPoll, onData, onError, onClose, onDetected,
    handleStateChange, handleDiscordMessage, onUncaughtException, shutdown,
    onClientReady, startMonitorPolling, armMonitorTimeout, runDetect.

Lemma dispatch_keeps_flag ev :
  ev <> ClientReady -> keeps isDiscordConnected (dispatch ev).
Proof.
  intros Hev. destruct ev; try contradiction; open_listeners; frame.
Qed.

Lemma onUncaughtException_keeps_flag : keeps isDiscordConnected onUncaughtException.
Proof. open_listeners. frame. Qed.

Lemma step_keeps_flag ev w :
  isDiscordConnected w = true -> isDiscordConnected (step ev w) = true.
Proof.
  intros Hconn. unfold step. destruct (exited w); [exact Hconn|].
  destruct ev as [t|p c|p|p| |t m|t|];
    try (rewrite <- Hconn; unfold exec;
         apply (keeps_try_catch isDiscordConnected);
         [apply dispatch_keeps_flag; discriminate
         | exact onUncaughtException_keeps_flag]).
  unfold dispatch. run_monad. rewrite Hconn. run_monad. exact Hconn.
Qed.

(** X1.  Once the connection flag is [true] no event turns it back to
    [false]: the file never resets it. *)
Theorem connection_flag_never_reset (evs : list Event) (w : World) :
  isDiscordConnected w = true -> isDiscordConnected (run evs w) = true.
Proof.
  revert w. induction evs as [|ev evs IH]; intros w Hconn; [exact Hconn|].
  rewrite run_cons. apply IH. apply step_keeps_flag. exact Hconn.
Qed.






(** *** The listeners of the process *)

(** X4.  The ['uncaughtException'] listener logs and hands over to
    [shutdown], which ends the process itself: the exit code is 0, and the
    listener's own [process.exit(1)] is never reached. *)
Theorem uncaught_exception_exits_zero (w : World) :
  onUncaughtException w = shutdown (exec (log Error MsgUncaught) w)
  /\ exited (exec onUncaughtException w) = Some 0%Z.
Proof.
  unfold onUncaughtException.
  cbv beta iota delta [bind log emit modify exec]. cbn [snd].
  set (w1 := set_trace (trace w ++ [ELog Error MsgUncaught]) w).
  destruct (shutdown_runs w1) as (es & _ & _ & Hexit & _ & _ & Hout & _).
  unfold exec in Hexit.
  destruct (shutdown w1) as [o w2]. cbn [fst snd] in *. subst o.
  split; [reflexivity | exact Hexit].
Qed.

(** X5.  The ['unhandledRejection'] listener: outside production it writes
    its two log lines and the service keeps running, nothing else changes; in
    production it hands over to [shutdown] and the process ends with exit
    code 0. *)
Theorem unhandled_rejection_by_environment (w : World) :
  if isProduction then
    onUnhandledRejection w
    = shutdown (set_trace (trace w ++ [ELog Error MsgUnhandledRejection;
                                       ELog Error MsgRejectionFatal]) w)
    /\ exited (exec onUnhandledRejection w) = Some 0%Z
  else
    onUnhandledRejection w
    = (Ok tt, set_trace (trace w ++ [ELog Error MsgUnhandledRejection;
                                     ELog Warn MsgRejectionIgnored]) w).
Proof.
  unfold onUnhandledRejection. destruct isProduction.
  - cbv beta iota delta [bind log emit modify exec]. cbn [snd trace set_trace].
    rewrite <- app_assoc. cbn [app].
    match goal with |- context [shutdown ?W] => set (w1 := W) end.
    assert (Hw1 : w1 = set_trace (trace w ++ [ELog Error MsgUnhandledRejection;
                                              ELog Error MsgRejectionFatal]) w)
      by reflexivity.
    destruct (shutdown_runs w1) as (es & _ & _ & Hexit & _ & _ & Hout & _).
    unfold exec in Hexit. rewrite <- Hw1.
    destruct (shutdown w1) as [o w2]. cbn [fst snd] in *. subst o.
    split; [reflexivity | exact Hexit].
  - run_monad. flatten_trace. reflexivity.
Qed.



(** *** A successful startup *)

(** X7.  When [main] returns normally, none of the ten globals is [null] any
    more, the current session is the one [autoSelectSession] chose, the process
    has not been ended, and the run ends with [registration]: the listeners of
    the chat client are registered before the login is attempted, the
    listeners of the process only after it succeeded, and no listener is
    registered before that. *)
Theorem successful_startup (w : World) :
  fst (main w) = Ok tt ->
  (forall g, has g (exec main w) = true)
  /\ currentSession (exec main w) = autoSelectSession initialSession
  /\ exited (exec main w) = exited w
  /\ exists pre, trace (exec main w) = trace w ++ pre ++ registration
                 /\ filter isOn pre = [].
Proof.
  unfold exec. remember (main w) as r eqn:Hr. symmetry in Hr. revert Hr.
  unfold main, construct.
  repeat first
    [ progress (unfold has; run_monad; cbn [existsb Global_eqb orb])
    | match goal with
      | |- context [fails ?tr ?e] => destruct (fails tr e)
      | |- context [match autoSelectSession ?s with _ => _ end] =>
          destruct (autoSelectSession s) as [name|]
      | |- context [isSet (Some ?s)] => destruct (isSet (Some s))
      end ].
  all: intros <-; run_monad; intros Hok; try discriminate Hok.
  all: flatten_trace;
    (split; [intros g; unfold has; destruct g; reflexivity|]);
    (split; [reflexivity|]); (split; [reflexivity|]);
    match goal with
    | |- exists pre, _ ++ ?L = _ /\ _ =>
        exists (firstn (length L - 12) L); split; reflexivity
    end.
Qed.

(** *** Output of a sample *)






(** *** The blank-content guard *)

Lemma trimStart_nil s : trimStart s = [] -> forallb isWhiteSpace s = true.
Proof.
  induction s as [|c s IH]; simpl; [reflexivity|].
  destruct (isWhiteSpace c); [exact IH | discriminate].
Qed.

Lemma trimStart_head s c t :
  trimStart s = c :: t -> isWhiteSpace c = false.
Proof.
  induction s as [|d s IH]; simpl; [discriminate|].
  destruct (isWhiteSpace d) eqn:Hd; [exact IH|].
  intros [= -> _]. exact Hd.
Qed.

Lemma trim_nil s : trim s = [] -> forallb isWhiteSpace s = true.
Proof.
  unfold trim, trimEnd. intros H.
  apply trimStart_nil.
  destruct (trimStart s) as [|c t] eqn:Hs; [reflexivity|].
  assert (Hrev : trimStart (rev (c :: t)) = []).
  { destruct (trimStart (rev (c :: t))) as [|d l]; [reflexivity|].
    simpl in H. apply app_eq_nil in H as [_ H]. discriminate H. }
  apply trimStart_nil in Hrev.
  rewrite forallb_forall in Hrev.
  specialize (Hrev c (proj1 (in_rev (c :: t) c) (or_introl eq_refl))).
  rewrite (trimStart_head s c t Hs) in Hrev. discriminate.
Qed.

(** X9.  The guard [!content || content.trim().length === 0] drops a message
    exactly when every code unit of its content is white space or a line
    terminator (the empty content included): one other code unit anywhere is
    enough for the message to pass. *)
Theorem blank_iff_whitespace (s : jsstring) :
  isBlank s = true <-> forallb isWhiteSpace s = true.
Proof.
  split; [| apply isBlank_whitespace].
  unfold isBlank. intros H. apply orb_true_iff in H as [H | H];
    apply Nat.eqb_eq in H.
  - destruct s; [reflexivity | discriminate].
  - apply trim_nil. destruct (trim s); [reflexivity | discriminate].
Qed.

(** *** The ready event *)


(** *** One sample at a time *)

(** X11.  From startup on, as long as no sampling process emits ['error'],
    at most one sample is in flight, and a tick is never pending while one
    is: ticks and samples alternate. *)
Theorem at_most_one_sample_without_error (evs : list Event) :
  forallb noError evs = true ->
  inFlight (run evs started) <= 1
  /\ length (timers (run evs started)) + inFlight (run evs started) <= 1.
Proof.
  intros Hevs. destruct (one_sample_without_error evs Hevs) as [Hone _].
  unfold inFlight. split; lia.
Qed.

End Properties.

(** ** Properties of the slash commands *)

Section InteractionProperties.
Context {env : Collaborators} {ienv : InteractionCollaborators}.

(** Unfolds the monad of the interaction. *)
Ltac run_i :=
  cbv beta iota delta [ibind iret iget imodify icall ilog itry ithrow
                       deferReply editReply reply followUp];
  cbn [fst snd negb orb replied i_deferred i_replied itrace
       set_replied set_i_deferred set_i_replied set_itrace].

Lemma closureRun_ret {A} (a : A) : closureRun (iret a).
Proof.
  intros w. cbn. repeat split; [discriminate|].
  exists []. rewrite app_nil_r. split; reflexivity.
Qed.

Lemma closureRun_throw {A} : closureRun (ithrow (A := A)).
Proof.
  intros w. cbn. repeat split; [discriminate|].
  exists []. rewrite app_nil_r. split; reflexivity.
Qed.

Lemma closureRun_bind {A B} (c : I A) (k : A -> I B) :
  closureRun c -> (forall a, closureRun (k a)) -> closureRun (ibind c k).
Proof.
  intros Hc Hk w. unfold ibind.
  destruct (Hc w) as (Hne & Hd & es & Htr & Hes).
  destruct (c w) as [[a| |] w']; cbn [fst snd] in *.
  - destruct (Hk a w') as (Hne' & Hd' & es' & Htr' & Hes').
    split; [exact Hne'|]. split; [rewrite Hd'; exact Hd|].
    exists (es ++ es'). rewrite Htr', Htr, app_assoc, forallb_app, Hes, Hes'.
    split; reflexivity.
  - repeat split; [discriminate | exact Hd |]. exists es. split; assumption.
  - contradiction Hne. reflexivity.
Qed.

Lemma closureRun_try {A} (body handler : I A) :
  closureRun body -> closureRun handler -> closureRun (itry body handler).
Proof.
  intros Hb Hh w. unfold itry.
  destruct (Hb w) as (Hne & Hd & es & Htr & Hes).
  destruct (body w) as [[a| |] w']; cbn [fst snd] in *.
  - repeat split; [discriminate | exact Hd |]. exists es. split; assumption.
  - destruct (Hh w') as (Hne' & Hd' & es' & Htr' & Hes').
    split; [exact Hne'|]. split; [rewrite Hd'; exact Hd|].
    exists (es ++ es'). rewrite Htr', Htr, app_assoc, forallb_app, Hes, Hes'.
    split; reflexivity.
  - contradiction Hne. reflexivity.
Qed.

Lemma closureRun_call e : closureEffect e = true -> closureRun (icall e).
Proof.
  intros He w. unfold icall. cbn [fst snd].
  split; [destruct (ifails _ _); discriminate|]. split; [reflexivity|].
  exists [e]. cbn. rewrite He. split; reflexivity.
Qed.

Lemma closureRun_quiet {A} (c : I A) :
  (forall w, exists a, c w = (Ok a, w)
                       \/ c w = (Ok a, set_replied true w)
                       \/ c w = (Ok a, set_i_replied true w)) ->
  closureRun c.
Proof.
  intros Hc w. destruct (Hc w) as (a & [-> | [-> | ->]]); cbn;
    (repeat split; [discriminate|]);
    exists []; rewrite app_nil_r; split; reflexivity.
Qed.

(** Splits a closure into its calls. *)
Ltac closure :=
  repeat first
    [ apply closureRun_ret
    | apply closureRun_throw
    | apply closureRun_bind; [| intros ?]
    | apply closureRun_try
    | apply closureRun_call; reflexivity
    | match goal with
      | |- closureRun (if ?b then _ else _) => destruct b
      end
    | solve [ apply closureRun_quiet; intros ?; eexists;
              first [ left; reflexivity
                    | right; left; reflexivity
                    | right; right; reflexivity ] ] ].

Lemma closureRun_sendChunks cs : closureRun (sendChunks cs).
Proof.
  induction cs as [|c cs IH]; cbn [sendChunks]; [apply closureRun_ret|].
  unfold editReply, followUp. closure. exact IH.
Qed.

Lemma closureRun_sendHelp : closureRun sendHelp.
Proof.
  unfold sendHelp, editReply, followUp, interactionSendText. closure.
  apply closureRun_sendChunks.
Qed.

Lemma closureRun_runScript s : closureRun (runScript s).
Proof.
  induction s as [| |t k IH|k IH]; cbn [runScript].
  - apply closureRun_ret.
  - apply closureRun_throw.
  - intros w.
    destruct (closureRun_sendChunks (splitMessage (OutRaw t)) w)
      as (Hne & Hd & es & Htr & Hes).
    unfold interactionSendText.
    destruct (sendChunks (splitMessage (OutRaw t)) w) as [[a| |] w'];
      cbn [fst snd] in *; [| | contradiction Hne; reflexivity].
    + destruct (IH false w') as (Hne' & Hd' & es' & Htr' & Hes').
      split; [exact Hne'|]. split; [rewrite Hd'; exact Hd|].
      exists (es ++ es'). rewrite Htr', Htr, app_assoc, forallb_app, Hes, Hes'.
      split; reflexivity.
    + destruct (IH true w') as (Hne' & Hd' & es' & Htr' & Hes').
      split; [exact Hne'|]. split; [rewrite Hd'; exact Hd|].
      exists (es ++ es'). rewrite Htr', Htr, app_assoc, forallb_app, Hes, Hes'.
      split; reflexivity.
  - intros w.
    destruct (closureRun_sendHelp w) as (Hne & Hd & es & Htr & Hes).
    destruct (sendHelp w) as [[a| |] w'];
      cbn [fst snd] in *; [| | contradiction Hne; reflexivity].
    + destruct (IH (Some a) w') as (Hne' & Hd' & es' & Htr' & Hes').
      split; [exact Hne'|]. split; [rewrite Hd'; exact Hd|].
      exists (es ++ es'). rewrite Htr', Htr, app_assoc, forallb_app, Hes, Hes'.
      split; reflexivity.
    + destruct (IH None w') as (Hne' & Hd' & es' & Htr' & Hes').
      split; [exact Hne'|]. split; [rewrite Hd'; exact Hd|].
      exists (es ++ es'). rewrite Htr', Htr, app_assoc, forallb_app, Hes, Hes'.
      split; reflexivity.
Qed.

(** *** Guards, dispatch and the failure notice *)

(** X12.  An interaction that is not a chat-input command, or that comes from
    another channel than the configured one, has no effect: nothing is
    logged, the reply is not deferred, no handler runs. *)
Theorem foreign_interaction_has_no_effect (i : Interaction) (w : IWorld) :
  isChatInputCommand i = false
  \/ interaction_channelId i <> discord_channelId config ->
  handleInteraction i w = (Ok tt, w).
Proof.
  intros H. unfold handleInteraction, itry.
  destruct H as [H | H].
  - rewrite H. reflexivity.
  - apply String.eqb_neq in H. rewrite H.
    destruct (isChatInputCommand i); reflexivity.
Qed.

(** The [catch] block always ends normally. *)
Lemma failure_notice_runs w :
  exists w',
    failureNotice w = (Ok tt, w')
    /\ itrace w'
       = itrace w
         ++ [ILog Error IMsgInteractionFailed;
             if i_deferred w || i_replied w
             then IFollowUp BodyFailure else IReply BodyFailure]
         ++ (if ifails (itrace w ++ [ILog Error IMsgInteractionFailed])
                  (if i_deferred w || i_replied w
                   then IFollowUp BodyFailure else IReply BodyFailure)
             then [ILog Error IMsgReplyFailed] else []).
Proof.
  unfold failureNotice.
  run_i. destruct (i_deferred w || i_replied w); run_i;
    destruct (ifails _ _); run_i; eexists; (split; [reflexivity|]);
    run_i; repeat rewrite <- app_assoc; reflexivity.
Qed.

(** The part of [handleInteraction] after [let replied = false]. *)
Lemma closureRun_dispatch i :
  closureRun
    (match route i with
     | Some h => runScript (handlerScript h)
     | None => interactionSendText (OutUnknownCommand (commandName i))
     end).
Proof.
  destruct (route i); [apply closureRun_runScript | apply closureRun_sendChunks].
Qed.

Lemma handled_guards i :
  handled i = true ->
  isChatInputCommand i = true
  /\ String.eqb (interaction_channelId i) (discord_channelId config) = true.
Proof. unfold handled. intros H. apply andb_true_iff in H. exact H. Qed.

(** How a run goes on once [deferReply] has resolved. *)
Lemma deferred_run i w :
  handled i = true ->
  ifails (itrace w ++ [ILog Info (IMsgCommand (commandName i))]) IDeferReply = false ->
  exists w' es tail,
    handleInteraction i w = (Ok tt, w')
    /\ itrace w'
       = itrace w ++ ILog Info (IMsgCommand (commandName i)) :: IDeferReply
                  :: entered i ++ es ++ tail
    /\ forallb closureEffect es = true
    /\ failureTail tail.
Proof.
  intros Hh Hdefer. destruct (handled_guards i Hh) as [Hchat Hchan].
  unfold handleInteraction. rewrite Hchat, Hchan. cbn [negb].
  unfold itry at 1, runHandler, entered.
  cbv beta iota delta [ibind ilog imodify deferReply icall].
  cbn [itrace set_itrace]. rewrite Hdefer.
  cbn [fst snd itrace set_itrace set_i_deferred set_replied].
  assert (Hshape : forall (c : I unit) w1 pre,
    closureRun c -> i_deferred w1 = true -> itrace w1 = itrace w ++ pre ->
    exists w' es tail,
      (let (o, w2) := c w1 in
       match o with
       | Ok a => (Ok a, w2)
       | Thrown => failureNotice w2
       | Exited => (Exited, w2)
       end) = (Ok tt, w')
      /\ itrace w' = itrace w ++ pre ++ es ++ tail
      /\ forallb closureEffect es = true
      /\ failureTail tail).
  { intros c w1 pre Hc Hd1 Htr1.
    destruct (Hc w1) as (Hne & Hd & es & Htr & Hes).
    destruct (c w1) as [[[]| |] w2]; cbn [fst snd] in *.
    - exists w2, es, []. rewrite app_nil_r, Htr, Htr1, <- app_assoc.
      repeat split; [exact Hes | left; reflexivity].
    - destruct (failure_notice_runs w2) as (w3 & Hrun & Htr3).
      rewrite Hd, Hd1 in Htr3. cbn [orb] in Htr3.
      rewrite Hrun.
      destruct (ifails (itrace w2 ++ [ILog Error IMsgInteractionFailed])
                  (IFollowUp BodyFailure)).
      + exists w3, es, [ILog Error IMsgInteractionFailed; IFollowUp BodyFailure;
                        ILog Error IMsgReplyFailed].
        split; [reflexivity|].
        split; [rewrite Htr3, Htr, Htr1; repeat rewrite <- app_assoc; reflexivity|].
        split; [exact Hes | right; right; reflexivity].
      + exists w3, es, [ILog Error IMsgInteractionFailed; IFollowUp BodyFailure].
        split; [reflexivity|].
        split; [rewrite Htr3, Htr, Htr1; repeat rewrite <- app_assoc; reflexivity|].
        split; [exact Hes | right; left; reflexivity].
    - contradiction Hne. reflexivity. }
  destruct (route i) as [h|].
  - match goal with
    | |- context [runScript _ ?W] =>
        destruct (Hshape (runScript (handlerScript h)) W
                    [ILog Info (IMsgCommand (commandName i)); IDeferReply; IHandler h]
                    (closureRun_runScript _) eq_refl)
          as (w' & es & tail & Hrun & Htr & Hes & Htail)
    end.
    { cbn [itrace set_itrace set_replied set_i_deferred].
      repeat rewrite <- app_assoc. reflexivity. }
    exists w', es, tail. split; [exact Hrun|]. split; [exact Htr|].
    split; assumption.
  - match goal with
    | |- context [interactionSendText ?m ?W] =>
        destruct (Hshape (interactionSendText m) W
                    [ILog Info (IMsgCommand (commandName i)); IDeferReply]
                    (closureRun_sendChunks _) eq_refl)
          as (w' & es & tail & Hrun & Htr & Hes & Htail)
    end.
    { cbn [itrace set_itrace set_replied set_i_deferred].
      repeat rewrite <- app_assoc. reflexivity. }
    exists w', es, tail. split; [exact Hrun|]. split; [exact Htr|].
    split; assumption.
Qed.


(** X14.  When [deferReply] has resolved, the handler the command name leads
    to is entered next, and it is the only one; from then on the user is
    answered through [editReply] and [followUp] only, never through [reply];
    if the handler throws, the failure is logged and the failure notice
    follows up. *)
Theorem deferred_interaction_is_dispatched_once (i : Interaction) (w : IWorld) :
  handled i = true ->
  ifails (itrace w ++ [ILog Info (IMsgCommand (commandName i))]) IDeferReply = false ->
  exists es tail,
    iadded (handleInteraction i) w
    = ILog Info (IMsgCommand (commandName i)) :: IDeferReply
        :: entered i ++ es ++ tail
    /\ forallb closureEffect es = true
    /\ failureTail tail.
Proof.
  intros Hh Hdefer.
  destruct (deferred_run i w Hh Hdefer) as (w' & es & tail & Hrun & Htr & Hes & Htail).
  exists es, tail. unfold iadded. rewrite Hrun. cbn [snd].
  rewrite Htr, skipn_length_app. repeat split; assumption.
Qed.

(** X15.  When [deferReply] itself fails on a fresh interaction, no handler
    runs; the failure is logged and the failure notice is sent with [reply]
    (there is nothing to follow up on); if that fails too, it is logged and
    nothing else happens. *)
Theorem failed_defer_is_answered_by_reply (i : Interaction) (tr : list IEffect) :
  handled i = true ->
  ifails (tr ++ [ILog Info (IMsgCommand (commandName i))]) IDeferReply = true ->
  iadded (handleInteraction i) (freshInteraction tr)
  = [ILog Info (IMsgCommand (commandName i)); IDeferReply;
     ILog Error IMsgInteractionFailed; IReply BodyFailure]
    ++ (if ifails (tr ++ [ILog Info (IMsgCommand (commandName i)); IDeferReply;
                          ILog Error IMsgInteractionFailed])
             (IReply BodyFailure)
        then [ILog Error IMsgReplyFailed] else []).
Proof.
  intros Hh Hdefer. destruct (handled_guards i Hh) as [Hchat Hchan].
  unfold iadded, handleInteraction. rewrite Hchat, Hchan. cbn [negb].
  unfold itry at 1.
  cbv beta iota delta [ibind ilog imodify deferReply icall freshInteraction].
  cbn [itrace set_itrace]. rewrite Hdefer.
  match goal with
  | |- context [failureNotice ?W] =>
      destruct (failure_notice_runs W) as (w' & -> & Htr)
  end.
  cbn [snd]. rewrite Htr.
  cbn [itrace set_itrace i_deferred i_replied orb].
  repeat rewrite <- app_assoc. cbn [app].
  rewrite skipn_length_app. reflexivity.
Qed.

(** *** Editing the deferred reply, then following up *)

Lemma deliver_true bs : deliver true bs = map IFollowUp bs.
Proof. destruct bs; reflexivity. Qed.

Lemma deliver_app r bs1 bs2 :
  deliver r (bs1 ++ bs2) = deliver r bs1 ++ deliver (r || nonempty bs1) bs2.
Proof.
  destruct bs1 as [|b bs1]; cbn.
  - rewrite orb_false_r. reflexivity.
  - rewrite orb_true_r, deliver_true, map_app. reflexivity.
Qed.

Lemma filter_isAnswer_deliver r bs : filter isAnswer (deliver r bs) = deliver r bs.
Proof.
  assert (Hmap : forall l, filter isAnswer (map IFollowUp l) = map IFollowUp l).
  { induction l as [|b l IH]; cbn; [reflexivity | rewrite IH; reflexivity]. }
  destruct bs as [|b bs]; cbn; [reflexivity|].
  rewrite Hmap. destruct r; reflexivity.
Qed.

Section AnswersArrive.
Hypothesis answers_arrive : forall tr e, isAnswer e = true -> ifails tr e = false.

Lemma sendChunks_delivers cs : forall w,
  exists w',
    sendChunks cs w = (Ok tt, w')
    /\ itrace w' = itrace w ++ deliver (replied w) (map BodyChunk cs)
    /\ replied w' = replied w || nonempty cs
    /\ i_deferred w' = i_deferred w.
Proof.
  induction cs as [|c cs IH]; intros w.
  - exists w. cbn. rewrite app_nil_r, orb_false_r. repeat split; reflexivity.
  - cbn [sendChunks]. run_i. destruct (replied w) eqn:Hr; run_i;
      rewrite answers_arrive by reflexivity; run_i.
    + match goal with |- context [sendChunks cs ?W] =>
        destruct (IH W) as (w' & -> & Htr & Hrep & Hdef) end.
      exists w'. cbn [itrace set_itrace replied i_deferred] in *.
      rewrite Htr, Hrep, Hr, Hdef, deliver_true, <- app_assoc.
      repeat split; reflexivity.
    + match goal with |- context [sendChunks cs ?W] =>
        destruct (IH W) as (w' & -> & Htr & Hrep & Hdef) end.
      exists w'.
      cbn [itrace set_itrace replied i_deferred set_replied set_i_replied] in *.
      rewrite Htr, Hrep, Hdef, deliver_true, <- app_assoc.
      repeat split; reflexivity.
Qed.

(** The fallback of the [sendHelp] override. *)
Lemma sendHelp_falls_back w :
  ifails (itrace w) IImportEmbed = true ->
  exists w',
    sendHelp w = (Ok false, w')
    /\ itrace w'
       = itrace w ++ IImportEmbed
           :: deliver (replied w) (map BodyChunk (splitMessage OutHelpFallback))
    /\ i_deferred w' = i_deferred w.
Proof.
  intros Himp. unfold sendHelp, interactionSendText. run_i. rewrite Himp. run_i.
  match goal with |- context [sendChunks ?cs ?W] =>
    destruct (sendChunks_delivers cs W) as (w' & -> & Htr & _ & Hdef) end.
  exists w'. run_i. cbn [itrace set_itrace replied i_deferred] in *.
  rewrite Htr, Hdef, <- app_assoc. repeat split; reflexivity.
Qed.

End AnswersArrive.

Section NoFailure.
Hypothesis no_failure : forall tr e, ifails tr e = false.

Lemma sendHelp_delivers w :
  exists w',
    sendHelp w = (Ok true, w')
    /\ itrace w' = itrace w ++ IImportEmbed :: deliver (replied w) [BodyHelpEmbed]
    /\ replied w' = true
    /\ i_deferred w' = i_deferred w.
Proof.
  unfold sendHelp. run_i. rewrite no_failure. run_i.
  destruct (replied w) eqn:Hr; run_i; rewrite no_failure; run_i;
    eexists; (split; [reflexivity|]); run_i; rewrite <- app_assoc;
    repeat split; try reflexivity; exact Hr.
Qed.

Lemma runScript_delivers s : forall w,
  exists w' es,
    runScript s w = (if scriptThrows s then Thrown else Ok tt, w')
    /\ itrace w' = itrace w ++ es
    /\ filter isAnswer es = deliver (replied w) (scriptBodies s)
    /\ i_deferred w' = i_deferred w.
Proof.
  assert (Hgen : forall w,
    exists w' es,
      runScript s w = (if scriptThrows s then Thrown else Ok tt, w')
      /\ itrace w' = itrace w ++ es
      /\ filter isAnswer es = deliver (replied w) (scriptBodies s)
      /\ replied w' = replied w || nonempty (scriptBodies s)
      /\ i_deferred w' = i_deferred w).
  { induction s as [| |t k IH|k IH]; intros w; cbn [runScript scriptThrows scriptBodies].
    - exists w, []. cbn. rewrite app_nil_r, orb_false_r. repeat split; reflexivity.
    - exists w, []. cbn. rewrite app_nil_r, orb_false_r. repeat split; reflexivity.
    - unfold interactionSendText.
      destruct (sendChunks_delivers (fun tr e _ => no_failure tr e) (splitMessage (OutRaw t)) w)
        as (w1 & -> & Htr1 & Hrep1 & Hdef1).
      destruct (IH false w1) as (w' & es & -> & Htr & Hans & Hrep & Hdef).
      exists w', (deliver (replied w) (map BodyChunk (splitMessage (OutRaw t))) ++ es).
      split; [reflexivity|].
      split; [rewrite Htr, Htr1, app_assoc; reflexivity|].
      split; [rewrite filter_app, filter_isAnswer_deliver, Hans, Hrep1, deliver_app;
              destruct (splitMessage (OutRaw t)); reflexivity|].
      split; [rewrite Hrep, Hrep1, <- orb_assoc; f_equal;
              destruct (splitMessage (OutRaw t)); reflexivity|].
      rewrite Hdef. exact Hdef1.
    - destruct (sendHelp_delivers w) as (w1 & -> & Htr1 & Hrep1 & Hdef1).
      destruct (IH (Some true) w1) as (w' & es & -> & Htr & Hans & Hrep & Hdef).
      exists w', (IImportEmbed :: deliver (replied w) [BodyHelpEmbed] ++ es).
      split; [reflexivity|].
      split; [rewrite Htr, Htr1, <- app_assoc; reflexivity|].
      split; [cbn [filter isAnswer]; rewrite filter_app, filter_isAnswer_deliver,
                Hans, Hrep1;
              change (BodyHelpEmbed :: scriptBodies (k (Some true)))
                with ([BodyHelpEmbed] ++ scriptBodies (k (Some true)));
              rewrite deliver_app; cbn [nonempty]; rewrite orb_true_r; reflexivity|].
      split; [rewrite Hrep, Hrep1; cbn [nonempty]; rewrite orb_true_r; reflexivity|].
      rewrite Hdef. exact Hdef1. }
  intros w. destruct (Hgen w) as (w' & es & H1 & H2 & H3 & _ & H5).
  exists w', es. repeat split; assumption.
Qed.

Lemma answers_when_nothing_fails i w :
  handled i = true ->
  filter isAnswer (iadded (handleInteraction i) w)
  = deliver false (interactionBodies i)
    ++ (if interactionThrows i then [IFollowUp BodyFailure] else []).
Proof.
  intros Hh. destruct (handled_guards i Hh) as [Hchat Hchan].
  unfold iadded, handleInteraction, interactionBodies, interactionThrows.
  rewrite Hchat, Hchan. cbn [negb].
  unfold itry at 1, runHandler.
  cbv beta iota delta [ibind ilog imodify deferReply icall].
  cbn [itrace set_itrace]. rewrite no_failure.
  cbn [fst snd itrace set_itrace set_i_deferred set_replied].
  destruct (route i) as [h|].
  - match goal with |- context [runScript _ ?W] =>
      destruct (runScript_delivers (handlerScript h) W)
        as (w1 & es & -> & Htr & Hans & Hdef) end.
    cbn [itrace set_itrace replied set_replied i_deferred set_i_deferred] in *.
    destruct (scriptThrows (handlerScript h)).
    + destruct (failure_notice_runs w1) as (w2 & -> & Htr2).
      rewrite Hdef in Htr2. cbn [orb] in Htr2. rewrite no_failure in Htr2.
      cbn [snd]. rewrite Htr2, Htr. repeat rewrite <- app_assoc. cbn [app].
      rewrite skipn_length_app. cbn [filter isAnswer].
      rewrite filter_app, Hans. cbn. reflexivity.
    + cbn [snd]. rewrite Htr. repeat rewrite <- app_assoc. cbn [app].
      rewrite skipn_length_app. cbn [filter isAnswer].
      rewrite Hans, app_nil_r. reflexivity.
  - unfold interactionSendText.
    match goal with |- context [sendChunks ?cs ?W] =>
      destruct (sendChunks_delivers (fun tr e _ => no_failure tr e) cs W)
        as (w1 & -> & Htr & _) end.
    cbn [snd itrace set_itrace replied set_replied set_i_deferred] in *.
    rewrite Htr. repeat rewrite <- app_assoc. cbn [app].
    rewrite skipn_length_app. cbn [filter isAnswer].
    rewrite filter_isAnswer_deliver, app_nil_r. reflexivity.
Qed.

End NoFailure.

(** X16.  When no call on the interaction fails, the user is answered with
    everything the handler sends, in order: the first chunk or embed edits the
    deferred reply, every later one follows up, across all the handler's
    calls of [sendText] and [sendHelp]; and if the handler then throws, the
    failure notice follows up last. *)
Theorem answers_edit_first_then_follow_up (i : Interaction) (w : IWorld) :
  (forall tr e, ifails tr e = false) ->
  handled i = true ->
  filter isAnswer (iadded (handleInteraction i) w)
  = deliver false (interactionBodies i)
    ++ (if interactionThrows i then [IFollowUp BodyFailure] else []).
Proof. intros Hnf Hh. exact (answers_when_nothing_fails Hnf i w Hh). Qed.

(** *** The command table and the dispatcher *)

(** X17.  The dispatcher and the command table agree: an interaction is led to
    a command handler exactly when its command name is one the table
    registers; any other name takes the [default] branch. *)
Theorem registered_commands_are_routed (i : Interaction) :
  (exists h, route i = Some h) <-> In (commandName i) (map cmd_name commands).
Proof.
  split.
  - intros [h Hr]. revert Hr. unfold route. cbn [map commands cmd_name In].
    repeat match goal with
    | |- context [String.eqb (commandName i) ?s] =>
        destruct (String.eqb (commandName i) s) eqn:E;
        [apply String.eqb_eq in E; rewrite E; intros _; tauto | clear E]
    end.
    discriminate.
  - cbn [map commands cmd_name In]. unfold route.
    intros H.
    repeat (destruct H as [H|H];
            [rewrite <- H; cbn; eexists; reflexivity|]).
    destruct H.
Qed.

(** X18.  The dispatcher reads no option the table does not register: two
    interactions with the same command name that agree on the options
    registered for it are led to the same handler with the same arguments. *)
Theorem route_reads_registered_options_only (i j : Interaction) :
  commandName i = commandName j ->
  (forall o, In o (registeredOptions (commandName i)) ->
             getString o (options i) = getString o (options j)) ->
  route i = route j.
Proof.
  intros Hname Hopts. unfold route. rewrite <- Hname.
  repeat match goal with
  | |- context [String.eqb (commandName i) ?s] =>
      destruct (String.eqb (commandName i) s) eqn:E;
      [apply String.eqb_eq in E; rewrite E in Hopts;
       try reflexivity;
       match goal with
       | |- context [getString ?o (options i)] =>
           rewrite (Hopts o (or_introl eq_refl)); reflexivity
       end
      | clear E]
  end.
  reflexivity.
Qed.

(** *** Registration *)

(** X19.  [registerCommands] puts the guild commands only after the global
    list has been cleared without failure, and what it puts is the command
    table; it never swallows a failure: it throws exactly when it has logged
    the registration error, and logs success exactly when it returns. *)
Theorem registration_clears_then_puts (clientId guildId : string) (w : IWorld) :
  let r := registerCommands clientId guildId w in
  let added := iadded (registerCommands clientId guildId) w in
  let clearing := IRestPut (applicationCommands clientId) [] in
  fst r <> Exited
  /\ (fst r = Thrown <-> In (ILog Error IMsgRegistrationFailed) added)
  /\ (fst r = Ok tt <-> In (ILog Success (IMsgRegistered (length commands))) added)
  /\ (exists rest, added = clearing :: rest)
  /\ (forall rt body, In (IRestPut rt body) added ->
        IRestPut rt body = clearing
        \/ (rt = applicationGuildCommands clientId guildId
            /\ body = commands
            /\ ifails (itrace w) clearing = false)).
Proof.
  cbv zeta. unfold iadded, registerCommands, itry.
  cbv beta iota delta [ibind ilog imodify icall ithrow].
  cbn [itrace set_itrace fst snd].
  destruct (ifails (itrace w) (IRestPut (applicationCommands clientId) [])) eqn:Hg;
    cbn [itrace set_itrace fst snd].
  - repeat rewrite <- app_assoc. cbn [app]. rewrite skipn_length_app.
    repeat split; try discriminate; cbn [In]; try tauto.
    + intros [H|[H|[]]]; discriminate.
    + eexists; reflexivity.
    + intros rt body [H|[H|[]]]; [left; symmetry; exact H | discriminate].
  - match goal with |- context [ifails ?t ?e] =>
      destruct (ifails t e) eqn:Hc end;
      cbn [itrace set_itrace fst snd];
      repeat rewrite <- app_assoc; cbn [app]; rewrite skipn_length_app.
    + repeat split; try discriminate; cbn [In]; try tauto.
      * intros [H|[H|[H|[H|[H|[]]]]]]; discriminate.
      * eexists; reflexivity.
      * intros rt body [H|[H|[H|[H|[H|[]]]]]]; try discriminate.
        -- left; symmetry; exact H.
        -- right. injection H as <- <-. repeat split; reflexivity.
    + repeat split; try discriminate; cbn [In]; try tauto.
      * intros [H|[H|[H|[H|[H|[]]]]]]; discriminate.
      * eexists; reflexivity.
      * intros rt body [H|[H|[H|[H|[H|[]]]]]]; try discriminate.
        -- left; symmetry; exact H.
        -- right. injection H as <- <-. repeat split; reflexivity.
Qed.

(** *** The help embed and its fallback *)

(** X20.  When the import of discord.js or the construction of the embed
    fails inside the [sendHelp] override, and the answers themselves go
    through, the override does not throw: it reports failure and the help
    reaches the user as plain text, the first chunk editing the deferred
    reply unless that has been edited already. *)
Theorem help_falls_back_to_text (w : IWorld) :
  (forall tr e, isAnswer e = true -> ifails tr e = false) ->
  ifails (itrace w) IImportEmbed = true ->
  fst (sendHelp w) = Ok false
  /\ iadded sendHelp w
     = IImportEmbed
         :: deliver (replied w) (map BodyChunk (splitMessage OutHelpFallback)).
Proof.
  intros Hans Himp.
  destruct (sendHelp_falls_back Hans w Himp) as (w' & Hrun & Htr & _).
  unfold iadded. rewrite Hrun. cbn [fst snd]. rewrite Htr, skipn_length_app.
  split; reflexivity.
Qed.

End InteractionProperties.

(** ** The model at concrete inputs *)

(** C1 (counterexample).  [error] is one of the states needing attention, yet
    handling an [error] result sends nothing to the chat. *)
Lemma error_state_is_not_notified :
  needsAttention (sr_type errorResult) = true
  /\ ~ notifiesChat (env := quietEnv) errorResult started.
Proof.
  split; [reflexivity|].
  unfold notifiesChat. vm_compute. discriminate.
Qed.

(** C2 (the code at the failing input).  After [overlapTrace] two sampling
    processes for the same session are in flight. *)
Theorem sampling_processes_overlap :
  inFlight (run (env := quietEnv) overlapTrace started) = 2
  /\ map target (procs (run (env := quietEnv) overlapTrace started))
     = [Some "main"; Some "main"].
Proof. split; vm_compute; reflexivity. Qed.




(** The first sample fails to spawn: with the tick scheduled at the ready
    event, three ticks have been scheduled after its ['error'] and ['close']. *)
Lemma error_then_close_witness :
  exited (sampling (env := quietEnv)) = None
  /\ isDiscordConnected (sampling (env := quietEnv)) = true
  /\ findProc 1 (sampling (env := quietEnv)) = Some firstSample
  /\ length (filter isSetTimeout
       (trace (run (env := quietEnv) [ProcError 1; ProcClose 1] sampling))) = 3.
Proof.
  repeat (split; [reflexivity|]).
  exact (error_then_close_schedules_two_ticks (env := quietEnv) sampling 1
           firstSample eq_refl eq_refl eq_refl).
Defined.


(** A message written by a bot changes nothing. *)
Lemma filtered_message_witness :
  author_bot botMessage = true
  /\ step (env := quietEnv) (MessageCreate 5 botMessage) started = started.
Proof.
  split; [reflexivity|].
  exact (proj2 (filtered_message_has_no_effect (env := quietEnv) 5 botMessage
                  started (or_introl eq_refl))).
Defined.

(** The routing of [sampleMessage] fails; its id stays marked and a second
    delivery is not routed. *)
Lemma mark_survives_witness :
  exited (started (env := routeFailsEnv)) = None
  /\ accepted (env := routeFailsEnv) sampleMessage = true
  /\ Dedup.isProcessed (eventId sampleMessage)
       (cache (started (env := routeFailsEnv))) = false
  /\ fails (Collaborators := routeFailsEnv) [] (ERoute (content sampleMessage)) = true
  /\ forallb (isRedelivery (env := routeFailsEnv) sampleMessage 1000)
       [MessageCreate 2000 sampleMessage] = true
  /\ Dedup.isProcessed (eventId sampleMessage) (cache routeFailed) = true
  /\ filter isRoute (trace (run (env := routeFailsEnv)
                              [MessageCreate 2000 sampleMessage] routeFailed))
     = filter isRoute (trace routeFailed).
Proof.
  repeat (split; [reflexivity|]).
  exact (proj2 (proj2 (proj2 (mark_precedes_route_and_survives_failure
     (env := routeFailsEnv) 1000 sampleMessage started
     [MessageCreate 2000 sampleMessage] eq_refl eq_refl eq_refl eq_refl)))).
Defined.


(** After the spawn failure of the first sample the service is still
    connected. *)
Lemma connection_flag_witness :
  isDiscordConnected (sampling (env := quietEnv)) = true
  /\ isDiscordConnected (run (env := quietEnv) spawnFailure sampling) = true.
Proof.
  split; [reflexivity|].
  exact (connection_flag_never_reset (env := quietEnv) spawnFailure sampling eq_refl).
Defined.


(** When nothing fails [main] returns normally; every global is set then. *)
Lemma successful_startup_witness :
  fst (main (env := quietEnv) (world0 [])) = Ok tt
  /\ forall g, has g (exec (env := quietEnv) main (world0 [])) = true.
Proof.
  split; [reflexivity|].
  exact (proj1 (successful_startup (env := quietEnv) (world0 []) eq_refl)).
Defined.



(** Ready, a tick, the close of its sample and the next tick: one sample is
    in flight and no tick is pending. *)
Lemma one_sample_witness :
  forallb noError quietRun = true
  /\ inFlight (run (env := quietEnv) quietRun started) <= 1
  /\ length (timers (run (env := quietEnv) quietRun started))
     + inFlight (run (env := quietEnv) quietRun started) <= 1.
Proof.
  split; [reflexivity|].
  exact (at_most_one_sample_without_error (env := quietEnv) quietRun eq_refl).
Defined.

(** [/help] from another channel is not even deferred. *)
Lemma foreign_interaction_witness :
  interaction_channelId foreignCommand
    <> discord_channelId (config (Collaborators := quietEnv))
  /\ handleInteraction (env := quietEnv) (ienv := quietIEnv) foreignCommand
       (freshInteraction [])
     = (Ok tt, freshInteraction []).
Proof.
  assert (Hchan : interaction_channelId foreignCommand
                  <> discord_channelId (config (Collaborators := quietEnv)))
    by discriminate.
  split; [exact Hchan|].
  exact (foreign_interaction_has_no_effect (env := quietEnv) (ienv := quietIEnv)
           foreignCommand (freshInteraction []) (or_intror Hchan)).
Defined.

(** [/kill] is deferred and dispatched to [handleKill]. *)
Lemma dispatched_once_witness :
  handled (env := quietEnv) killCommand = true
  /\ ifails (InteractionCollaborators := quietIEnv)
       (itrace (freshInteraction []) ++ [ILog Info (IMsgCommand (commandName killCommand))])
       IDeferReply = false
  /\ exists es tail,
       iadded (handleInteraction (env := quietEnv) (ienv := quietIEnv) killCommand)
         (freshInteraction [])
       = ILog Info (IMsgCommand (commandName killCommand)) :: IDeferReply
           :: entered (ienv := quietIEnv) killCommand ++ es ++ tail
       /\ forallb closureEffect es = true
       /\ failureTail tail.
Proof.
  split; [reflexivity|]. split; [reflexivity|].
  exact (deferred_interaction_is_dispatched_once (env := quietEnv) (ienv := quietIEnv)
           killCommand (freshInteraction []) eq_refl eq_refl).
Defined.

(** The token of [/help] has expired: the failure is answered by [reply],
    which is rejected in this environment only if [deferFails] says so. *)
Lemma failed_defer_witness :
  handled (env := quietEnv) helpCommand = true
  /\ ifails (InteractionCollaborators := expiredIEnv)
       ([] ++ [ILog Info (IMsgCommand (commandName helpCommand))]) IDeferReply = true
  /\ iadded (handleInteraction (env := quietEnv) (ienv := expiredIEnv) helpCommand)
       (freshInteraction [])
     = [ILog Info (IMsgCommand "help"); IDeferReply;
        ILog Error IMsgInteractionFailed; IReply BodyFailure].
Proof.
  split; [reflexivity|]. split; [reflexivity|].
  exact (failed_defer_is_answered_by_reply (env := quietEnv) (ienv := expiredIEnv)
           helpCommand [] eq_refl eq_refl).
Defined.

(** [/kill] with the sample handler: "ok" edits the deferred reply, the help
    embed follows up, and so does the failure notice. *)
Lemma answers_witness :
  (forall tr e, ifails (InteractionCollaborators := quietIEnv) tr e = false)
  /\ handled (env := quietEnv) killCommand = true
  /\ filter isAnswer
       (iadded (handleInteraction (env := quietEnv) (ienv := quietIEnv) killCommand)
          (freshInteraction []))
     = [IEditReply (BodyChunk [111; 107]%N); IFollowUp BodyHelpEmbed;
        IFollowUp BodyFailure].
Proof.
  split; [intros tr e; reflexivity|]. split; [reflexivity|].
  exact (answers_edit_first_then_follow_up (env := quietEnv) (ienv := quietIEnv)
           killCommand (freshInteraction []) (fun tr e => eq_refl) eq_refl).
Defined.

(** An option the table does not register for [/switch] changes nothing. *)
Lemma registered_options_witness :
  commandName switchCommand = commandName switchCommandExtra
  /\ (forall o, In o (registeredOptions (commandName switchCommand)) ->
                getString o (options switchCommand)
                = getString o (options switchCommandExtra))
  /\ route (ienv := quietIEnv) switchCommand
     = route (ienv := quietIEnv) switchCommandExtra.
Proof.
  assert (Hopts : forall o, In o (registeredOptions (commandName switchCommand)) ->
                            getString o (options switchCommand)
                            = getString o (options switchCommandExtra)).
  { intros o [<-|[]]. reflexivity. }
  split; [reflexivity|]. split; [exact Hopts|].
  exact (route_reads_registered_options_only (ienv := quietIEnv) switchCommand
           switchCommandExtra eq_refl Hopts).
Defined.

(** Without the embed builder the help goes out as the one chunk of the
    plain text, editing the deferred reply. *)
Lemma help_fallback_witness :
  (forall tr e, isAnswer e = true
                -> ifails (InteractionCollaborators := noEmbedIEnv) tr e = false)
  /\ ifails (InteractionCollaborators := noEmbedIEnv) (itrace (freshInteraction []))
       IImportEmbed = true
  /\ fst (sendHelp (ienv := noEmbedIEnv) (freshInteraction [])) = Ok false
  /\ iadded (sendHelp (ienv := noEmbedIEnv)) (freshInteraction [])
     = [IImportEmbed; IEditReply (BodyChunk [104]%N)].
Proof.
  assert (Hans : forall tr e, isAnswer e = true
                   -> ifails (InteractionCollaborators := noEmbedIEnv) tr e = false).
  { intros tr e. destruct e; cbn; congruence. }
  split; [exact Hans|]. split; [reflexivity|].
  exact (help_falls_back_to_text (ienv := noEmbedIEnv) (freshInteraction [])
           Hans eq_refl).
Defined.
